(** * Batch resolution of REDCap locking issues

    A shallow embedding of [scripts/reporting/batch_resolve_locking_issues.py]
    ([run_batch] and [main]) and of the statements its design document
    makes about it.

    The script talks to two external systems: the REDCap record store
    (unlock, re-run, relock) and the GitHub issue tracker (comment, close).
    Both are modelled as oracles that answer a request from the history of
    everything the script did before; the script itself is a computation
    in a small monad that reads the history, emits events and may raise. *)

From Stdlib Require Import String Ascii List Bool Arith ZArith Lia.
From Stdlib Require Import DecimalString DecimalNat.
Import ListNotations.
Local Open Scope string_scope.
Local Open Scope list_scope.

(** ** Strings of the script *)

(** The line feed of Python's ["\n"]. *)
Definition nl : string := String (ascii_of_nat 10) EmptyString.

(** Python's [s * n] on strings. *)
Fixpoint str_repeat (s : string) (n : nat) : string :=
  match n with
  | O => EmptyString
  | S n' => (s ++ str_repeat s n')%string
  end.

(** Python's [str(n)] inside an f-string, for an issue number. *)
Definition str_of_nat (n : nat) : string :=
  NilEmpty.string_of_uint (Nat.to_uint n).

(** ** Data model *)

(** A remediation command scraped from a ticket.  [command.test()] leaves
    its outcome on the object itself, in [success] and [result]. *)
Module Command.
Record t := make {
  study_id : string;
  form : string;
  success : bool;
  result : string
}.
End Command.

(** [commands.ExecRedcapLockingData(verbose, study_id, form, lock=...)]. *)
Module ExecRedcapLockingData.
Record t := make {
  verbose : bool;
  study_id : string;
  form : string;
  lock : bool;
  success : bool;
  result : string
}.

(** The constructor call of the script: nothing has run yet. *)
Definition new (verbose : bool) (study_id form : string) (lock : bool) : t :=
  make verbose study_id form lock false EmptyString.
End ExecRedcapLockingData.

(** A ticket as [utils.scrape_matching_issues] hands it over. *)
Module ScrapedIssue.
Record t := make {
  number : nat;
  title : string;
  body : string;
  label : string;
  commands : list Command.t;
  resolved : bool
}.

Definition get_commands (i : t) : list Command.t := commands i.

Definition with_commands (i : t) (cs : list Command.t) : t :=
  make (number i) (title i) (body i) (label i) cs (resolved i).

Definition with_resolved (i : t) (b : bool) : t :=
  make (number i) (title i) (body i) (label i) (commands i) b.
End ScrapedIssue.

(** One row of the metadata table, [["form_name", "field_name"]]. *)
Record Row := { form_name : string; field_name : string }.

Definition Metadata := list Row.

(** ** The outside world *)

(** A request to the record store. *)
Inductive Request :=
| LockingData (study_id form : string) (lock : bool)
| Rerun (study_id form : string).

(** What the record store answers: success flag and diagnostic text. *)
Record Outcome := { ok : bool; detail : string }.

(** A write to the issue tracker. *)
Inductive TrackerWrite :=
| CreateComment (number : nat) (text : string)
| CloseIssue (number : nat).

(** Everything the script does that can be observed from outside. *)
Inductive Event :=
| Printed (s : string)
| Redcap (r : Request)
| Github (w : TrackerWrite).

Definition History := list Event.

(** Python exceptions.  [message] is the attribute the handler of [main]
    reads: under Python 3 an exception has it only when its class defines
    it, so it is optional. *)
Inductive Exn :=
| AttributeError (attribute : string)
| GithubException (w : TrackerWrite)
| ServerError (message : option string).

Definition message (e : Exn) : option string :=
  match e with
  | ServerError m => m
  | _ => None
  end.

Inductive Result (A : Type) :=
| Ok (a : A)
| Raised (e : Exn).
Arguments Ok {A} a.
Arguments Raised {A} e.

(** The connection object: what [export_metadata(format="df")] gives after
    [reset_index()] and the selection of the two columns. *)
Record Api := { export_metadata : Metadata }.

(** The collaborators of the script that live outside of it. *)
Record Env := {
  IssueClass : Type;
  redcap : History -> Request -> Outcome;
  (* [true]: the tracker accepts the write; [false]: the call raises *)
  github : History -> TrackerWrite -> bool;
  connect_server : Result Api;
  get_class_for_label : string -> IssueClass;
  scrape_matching_issues :
    Metadata -> bool -> string -> string -> option (list nat) ->
    IssueClass -> list ScrapedIssue.t;
  verify_scraped_issues : list ScrapedIssue.t -> bool;
  stringify : ScrapedIssue.t -> string;
  stringify_result : ExecRedcapLockingData.t -> string;
  comment_text : ScrapedIssue.t -> string
}.

(** ** The monad of the script

    A computation reads the history so far and gives a result, or an
    exception, together with the events it emitted itself. *)
Definition M (A : Type) : Type := History -> Result A * list Event.

Definition ret {A} (a : A) : M A := fun _ => (Ok a, []).

Definition raise {A} (e : Exn) : M A := fun _ => (Raised e, []).

Definition bind {A B} (m : M A) (k : A -> M B) : M B :=
  fun h =>
    match m h with
    | (Ok a, evs) =>
        let (r, evs') := k a (h ++ evs) in (r, evs ++ evs')
    | (Raised e, evs) => (Raised e, evs)
    end.

Notation "x <- m ;; k" := (bind m (fun x => k))
  (at level 61, m at next level, right associativity).
Notation "m ;; k" := (bind m (fun _ => k))
  (at level 61, right associativity).

Definition print (s : string) : M unit := fun _ => (Ok tt, [Printed s]).

Section Script.

Variable env : Env.

(** The rule by which [update()] marks a ticket resolved.  [update()]
    belongs to [batch_script_utils.py], another module of the
    repository; [run_batch] calls it on the ticket and passes nothing
    else, so whatever the rule is, it is a rule on the ticket. *)
Variable resolves : ScrapedIssue.t -> bool.

Definition request (r : Request) : M Outcome :=
  fun h => (Ok (redcap env h r), [Redcap r]).

Definition write (w : TrackerWrite) : M unit :=
  fun h =>
    if github env h w then (Ok tt, [Github w])
    else (Raised (GithubException w), [Github w]).

(** Modelled from the spec: [ExecRedcapLockingData.test()] of
    [commands.py], another module of the repository.  One request
    to the record store; its outcome is captured on the object, never
    thrown. *)
Definition locking_test (c : ExecRedcapLockingData.t)
  : M ExecRedcapLockingData.t :=
  o <- request (LockingData (ExecRedcapLockingData.study_id c)
                            (ExecRedcapLockingData.form c)
                            (ExecRedcapLockingData.lock c)) ;;
  ret (ExecRedcapLockingData.make
         (ExecRedcapLockingData.verbose c)
         (ExecRedcapLockingData.study_id c)
         (ExecRedcapLockingData.form c)
         (ExecRedcapLockingData.lock c)
         (ok o) (detail o)).

(** Modelled from the spec: [test()] of a scraped command, which re-runs
    the failing import for its subject and form and captures the
    outcome on the command. *)
Definition command_test (c : Command.t) : M Command.t :=
  o <- request (Rerun (Command.study_id c) (Command.form c)) ;;
  ret (Command.make (Command.study_id c) (Command.form c)
                    (ok o) (detail o)).

(** The three objects of one pass through the loop over the commands,
    as they stand at the end of the body. *)
Record Phases := {
  unlock_command : ExecRedcapLockingData.t;
  command : Command.t;
  lock_command : ExecRedcapLockingData.t
}.

(** Lines 46-56: the body of [for command in scraped_issue.get_commands()]. *)
Definition run_command (verbose : bool) (command : Command.t) : M Phases :=
  let unlock_command :=
    ExecRedcapLockingData.new verbose (Command.study_id command)
                              (Command.form command) false in
  let lock_command :=
    ExecRedcapLockingData.new verbose (Command.study_id command)
                              (Command.form command) true in
  unlock_command <- locking_test unlock_command ;;
  command <- command_test command ;;
  lock_command <- locking_test lock_command ;;
  (if negb (ExecRedcapLockingData.success lock_command)
   then print ("Errors relocking:" ++ nl
                ++ stringify_result env lock_command)%string
   else ret tt) ;;
  ret (Build_Phases unlock_command command lock_command).

Fixpoint for_commands (verbose : bool) (cs : list Command.t)
  : M (list Phases) :=
  match cs with
  | [] => ret []
  | c :: cs' =>
      p <- run_command verbose c ;;
      ps <- for_commands verbose cs' ;;
      ret (p :: ps)
  end.

(** Modelled from the spec: [ScrapedIssue.update()] of
    [batch_script_utils.py].  It marks the ticket by its rule, posts one
    comment with the accumulated result text and closes the ticket iff
    it is resolved; a tracker call that fails raises. *)
Definition update (i : ScrapedIssue.t) : M ScrapedIssue.t :=
  let i := ScrapedIssue.with_resolved i (resolves i) in
  write (CreateComment (ScrapedIssue.number i) (comment_text env i)) ;;
  (if ScrapedIssue.resolved i
   then write (CloseIssue (ScrapedIssue.number i))
   else ret tt) ;;
  ret i.

(** The local variables of [run_batch] that the loop over the tickets
    carries along: the two outcome lists of the script, and, for the
    statements below, the tickets as they are after their update
    together with the three objects of each of their commands. *)
Record Locals := {
  processed : list (ScrapedIssue.t * list Phases);
  closed_issues : list string;
  commented_issues : list string
}.

Definition no_locals : Locals := Build_Locals [] [] [].

(** Lines 41-62: the body of [for scraped_issue in scraped_issues]. *)
Definition run_issue (verbose : bool) (l : Locals)
           (scraped_issue : ScrapedIssue.t) : M Locals :=
  (if verbose
   then print (str_repeat nl 20) ;; print (stringify env scraped_issue)
   else ret tt) ;;
  ps <- for_commands verbose (ScrapedIssue.get_commands scraped_issue) ;;
  (* the commands are the ticket's own objects: it sees them as run *)
  let scraped_issue :=
    ScrapedIssue.with_commands scraped_issue (map command ps) in
  scraped_issue <- update scraped_issue ;;
  let tag := ("#" ++ str_of_nat (ScrapedIssue.number scraped_issue))%string in
  if ScrapedIssue.resolved scraped_issue
  then ret (Build_Locals (processed l ++ [(scraped_issue, ps)])
                         (closed_issues l ++ [tag])
                         (commented_issues l))
  else ret (Build_Locals (processed l ++ [(scraped_issue, ps)])
                         (closed_issues l)
                         (commented_issues l ++ [tag])).

Fixpoint for_issues (verbose : bool) (l : Locals)
         (issues : list ScrapedIssue.t) : M Locals :=
  match issues with
  | [] => ret l
  | i :: issues' =>
      l' <- run_issue verbose l i ;;
      for_issues verbose l' issues'
  end.

Definition closed_summary (l : Locals) : string :=
  (nl ++ nl ++ "Closed:" ++ nl
      ++ String.concat ", " (closed_issues l))%string.

Definition commented_summary (l : Locals) : string :=
  ("Commented:" ++ nl ++ String.concat ", " (commented_issues l))%string.

(** Lines 38-66 of [run_batch]: what follows a verification that passed. *)
Definition process (verbose : bool) (scraped_issues : list ScrapedIssue.t)
  : M Locals :=
  l <- for_issues verbose no_locals scraped_issues ;;
  (if verbose
   then print (closed_summary l) ;; print (commented_summary l)
   else ret tt) ;;
  ret l.

Definition scraped (label : string) (issue_numbers : option (list nat))
           (metadata : Metadata) (verbose : bool) : list ScrapedIssue.t :=
  let title_string := "redcap_import_record:Failed to import into REDCap" in
  let issue_class := get_class_for_label env label in
  scrape_matching_issues env metadata verbose title_string label
                         issue_numbers issue_class.

(** [run_batch(label, issue_numbers, metadata, verbose)].  The script
    returns nothing; the model returns the local variables at the end,
    [None] when the batch was aborted. *)
Definition run_batch (label : string) (issue_numbers : option (list nat))
           (metadata : Metadata) (verbose : bool) : M (option Locals) :=
  let scraped_issues := scraped label issue_numbers metadata verbose in
  if negb (verify_scraped_issues env scraped_issues)
  then print "Aborting..." ;; ret None
  else l <- process verbose scraped_issues ;; ret (Some l).

(** *** [main] *)

(** [Series.unique()]: the distinct values, in order of first
    appearance. *)
Fixpoint unique_from (seen l : list string) : list string :=
  match l with
  | [] => []
  | x :: l' =>
      if existsb (String.eqb x) seen then unique_from seen l'
      else x :: unique_from (x :: seen) l'
  end.

Definition unique (l : list string) : list string := unique_from [] l.

(** [pd.DataFrame({"field_name": ..., "form_name": ...})]: rows from two
    parallel columns. *)
Definition data_frame (field_names form_names : list string) : Metadata :=
  map (fun p => {| form_name := snd p; field_name := fst p |})
      (combine field_names form_names).

(** Lines 90-99: add the [form]_complete field of each form. *)
Definition add_complete_fields (metadata : Metadata) : Metadata :=
  let forms := unique (map form_name metadata) in
  let complete_fields :=
    data_frame (map (fun form => (form ++ "_complete")%string) forms) forms in
  metadata ++ complete_fields.

Record Args := {
  labels : list string;
  issue_numbers : option (list nat);
  verbose : bool
}.

Fixpoint for_labels (ls : list string) (body : string -> M (option Locals))
  : M unit :=
  match ls with
  | [] => ret tt
  | label :: ls' => body label ;; for_labels ls' body
  end.

(** Lines 80-84: connect, and on an exception print its message. *)
Definition connect : M (option Api) :=
  match connect_server env with
  | Ok api => ret (Some api)
  | Raised e =>
      match message e with
      | Some m => print m ;; ret None
      | None => raise (AttributeError "message")
      end
  end.

(** [main()], from the connection on.  Argument parsing, the session and
    the unused configuration handle are left out. *)
Definition main (args : Args) : M unit :=
  redcap_api <- connect ;;
  match redcap_api with
  | None => raise (AttributeError "export_metadata")
  | Some api =>
      let metadata := add_complete_fields (export_metadata api) in
      for_labels (labels args)
                 (fun label =>
                    run_batch label (issue_numbers args) metadata
                              (verbose args))
  end.

End Script.

(** A rule for the example runs below: the ticket is marked resolved when
    it holds a command and every command of it succeeded.  It is an input
    of the examples, as their record store and their tracker are, and
    stands for no code of the repository: the rule of [update()] is not
    known here, and the statements on [run_batch] hold for every rule. *)
Definition all_commands_succeeded (cs : list Command.t) : bool :=
  negb (Nat.eqb (length cs) 0) && forallb Command.success cs.

Definition reruns_succeeded (i : ScrapedIssue.t) : bool :=
  all_commands_succeeded (ScrapedIssue.commands i).

(** ** What a run shows to the outside *)

Definition requests_of (evs : list Event) : list Request :=
  flat_map (fun e => match e with Redcap r => [r] | _ => [] end) evs.

Definition writes_of (evs : list Event) : list TrackerWrite :=
  flat_map (fun e => match e with Github w => [w] | _ => [] end) evs.

Definition prints_of (evs : list Event) : list string :=
  flat_map (fun e => match e with Printed s => [s] | _ => [] end) evs.

(** Numbers of the tickets that got a comment, and of those closed. *)
Definition commented_numbers (ws : list TrackerWrite) : list nat :=
  flat_map (fun w => match w with CreateComment n _ => [n] | _ => [] end) ws.

Definition closed_numbers (ws : list TrackerWrite) : list nat :=
  flat_map (fun w => match w with CloseIssue n => [n] | _ => [] end) ws.

(** The ticket a tracker write is about. *)
Definition write_number (w : TrackerWrite) : nat :=
  match w with
  | CreateComment n _ => n
  | CloseIssue n => n
  end.

(** The three requests of one command, in the order of the script. *)
Definition phases_of (c : Command.t) : list Request :=
  [ LockingData (Command.study_id c) (Command.form c) false;
    Rerun (Command.study_id c) (Command.form c);
    LockingData (Command.study_id c) (Command.form c) true ].

(** The report the script prints for a relock that failed. *)
Definition relock_report (env : Env) (p : Phases) : list string :=
  if ExecRedcapLockingData.success (lock_command p) then []
  else [("Errors relocking:" ++ nl
          ++ stringify_result env (lock_command p))%string].

(** What the script prints while it handles one ticket. *)
Definition ticket_prints (env : Env) (verbose : bool)
           (t : ScrapedIssue.t * list Phases) : list string :=
  (if verbose then [str_repeat nl 20; stringify env (fst t)] else [])
  ++ flat_map (relock_report env) (snd t).

Definition tag (i : ScrapedIssue.t) : string :=
  ("#" ++ str_of_nat (ScrapedIssue.number i))%string.

(** ** Concrete collaborators, for the examples *)

Definition answer_ok : Outcome := {| ok := true; detail := "ok" |}.
Definition answer_failed : Outcome := {| ok := false; detail := "locked" |}.

(** A record store on which every relock fails and all else succeeds. *)
Definition relock_fails (_ : History) (r : Request) : Outcome :=
  match r with
  | LockingData _ _ true => answer_failed
  | _ => answer_ok
  end.

Definition always_ok (_ : History) (_ : Request) : Outcome := answer_ok.

Definition accepts (_ : History) (_ : TrackerWrite) : bool := true.

(** A tracker that is down for the first write and up afterwards. *)
Definition first_write_fails (h : History) (_ : TrackerWrite) : bool :=
  negb (Nat.eqb (length (writes_of h)) 0).

Definition fixed_env (store : History -> Request -> Outcome)
           (tracker : History -> TrackerWrite -> bool)
           (server : Result Api) (issues : list ScrapedIssue.t)
           (verified : bool) : Env :=
  {| IssueClass := unit;
     redcap := store;
     github := tracker;
     connect_server := server;
     get_class_for_label := fun _ => tt;
     scrape_matching_issues := fun _ _ _ _ _ _ => issues;
     verify_scraped_issues := fun _ => verified;
     stringify := ScrapedIssue.body;
     stringify_result := ExecRedcapLockingData.result;
     comment_text :=
       fun i => String.concat nl (map Command.result (ScrapedIssue.commands i))
  |}.

Definition no_server : Result Api := Raised (ServerError None).

Definition demographics : Command.t :=
  Command.make "S001" "demographics" false EmptyString.

Definition clinical : Command.t :=
  Command.make "S002" "clinical" false EmptyString.

Definition visit_data : string := "update_visit_data".

Definition ticket (n : nat) (cs : list Command.t) : ScrapedIssue.t :=
  ScrapedIssue.make n "redcap_import_record:Failed to import into REDCap"
                    "body" visit_data cs false.

(** The locals a batch returned with. *)
Definition locals_of (r : Result (option Locals) * list Event) : Locals :=
  match fst r with
  | Ok (Some l) => l
  | _ => no_locals
  end.

(** Ticket 100 and a record store that refuses to relock. *)
Definition relock_fails_env : Env :=
  fixed_env relock_fails accepts no_server [ticket 100 [demographics]] true.

(** A record store that refuses to relock the clinical form only. *)
Definition clinical_relock_fails (_ : History) (r : Request) : Outcome :=
  match r with
  | LockingData _ form true =>
      if String.eqb form "clinical" then answer_failed else answer_ok
  | _ => answer_ok
  end.

(** Ticket 101 with two commands; the relock of the first one fails. *)
Definition second_scenario_env : Env :=
  fixed_env clinical_relock_fails accepts no_server
            [ticket 101 [clinical; demographics]] true.

(** Tickets 1 and 2 and a tracker that is down at first. *)
Definition tracker_down_env : Env :=
  fixed_env always_ok first_write_fails no_server
            [ticket 1 [demographics]; ticket 2 [clinical]] true.

(** Ticket 100, two tickets after it, and nothing that fails. *)
Definition all_fine_env : Env :=
  fixed_env always_ok accepts no_server
            [ticket 100 [demographics]; ticket 101 [clinical; demographics];
             ticket 102 []] true.

(** The verification of the scraped tickets fails. *)
Definition unverified_env : Env :=
  fixed_env always_ok accepts no_server [ticket 100 [demographics]] false.

(** A server that answers, with three fields on two forms. *)
Definition two_forms : Api :=
  {| export_metadata :=
       [ {| form_name := "demographics"; field_name := "sex" |};
         {| form_name := "clinical"; field_name := "visit_date" |};
         {| form_name := "demographics"; field_name := "age" |} ] |}.

Definition served_env : Env :=
  fixed_env always_ok accepts (Ok two_forms) [ticket 100 [demographics]] true.

(** A server whose exception carries a message. *)
Definition refused_env : Env :=
  fixed_env always_ok accepts (Raised (ServerError (Some "refused")))
            [ticket 100 [demographics]] true.

Definition one_label : Args :=
  {| labels := [visit_data]; issue_numbers := None;
     verbose := false |}.

(** ** The answers of the record store during one command *)

Section Answers.

Variable env : Env.
Variable resolves : ScrapedIssue.t -> bool.

Definition unlock_answer (c : Command.t) (h : History) : Outcome :=
  redcap env h
         (LockingData (Command.study_id c) (Command.form c) false).

Definition rerun_answer (c : Command.t) (h : History) : Outcome :=
  redcap env
         (h ++ [Redcap (LockingData (Command.study_id c) (Command.form c)
                                    false)])
         (Rerun (Command.study_id c) (Command.form c)).

Definition relock_answer (c : Command.t) (h : History) : Outcome :=
  redcap env
         (h ++ [Redcap (LockingData (Command.study_id c) (Command.form c)
                                    false);
                Redcap (Rerun (Command.study_id c) (Command.form c))])
         (LockingData (Command.study_id c) (Command.form c) true).

(** The three objects of command [c] when its pass starts at history
    [h]. *)
Definition phases_at (verbose : bool) (c : Command.t) (h : History)
  : Phases :=
  {| unlock_command :=
       ExecRedcapLockingData.make
         verbose (Command.study_id c) (Command.form c) false
         (ok (unlock_answer c h)) (detail (unlock_answer c h));
     command :=
       Command.make (Command.study_id c) (Command.form c)
                    (ok (rerun_answer c h)) (detail (rerun_answer c h));
     lock_command :=
       ExecRedcapLockingData.make
         verbose (Command.study_id c) (Command.form c) true
         (ok (relock_answer c h)) (detail (relock_answer c h)) |}.

(** [ps] are the objects of the commands [cs], each run at some point. *)
Definition ran (verbose : bool) (cs : list Command.t) (ps : list Phases)
  : Prop :=
  Forall2 (fun c p => exists h, p = phases_at verbose c h) cs ps.

(** [tp] is the ticket [i] after its commands ran and it was updated,
    with the objects of its commands. *)
Definition handled (verbose : bool) (i : ScrapedIssue.t)
           (tp : ScrapedIssue.t * list Phases) : Prop :=
  ran verbose (ScrapedIssue.commands i) (snd tp)
  /\ fst tp =
     ScrapedIssue.with_resolved
       (ScrapedIssue.with_commands i (map command (snd tp)))
       (resolves (ScrapedIssue.with_commands i (map command (snd tp)))).

(** The tracker writes of the update of a ticket. *)
Definition ticket_writes (t : ScrapedIssue.t) : list TrackerWrite :=
  CreateComment (ScrapedIssue.number t) (comment_text env t)
  :: (if ScrapedIssue.resolved t
      then [CloseIssue (ScrapedIssue.number t)] else []).

(** What the script prints after the last ticket. *)
Definition summary (verbose : bool) (l : Locals) : list string :=
  if verbose then [closed_summary l; commented_summary l] else [].

(** What the script prints before it runs the commands of a ticket. *)
Definition banner (verbose : bool) (i : ScrapedIssue.t) : list Event :=
  map Printed (if verbose then [str_repeat nl 20; stringify env i] else []).

(** The locals after the body of the loop over the tickets returned. *)
Definition recorded (l : Locals) (tp : ScrapedIssue.t * list Phases)
  : Locals :=
  if ScrapedIssue.resolved (fst tp)
  then Build_Locals (processed l ++ [tp])
                    (closed_issues l ++ [tag (fst tp)])
                    (commented_issues l)
  else Build_Locals (processed l ++ [tp])
                    (closed_issues l)
                    (commented_issues l ++ [tag (fst tp)]).

End Answers.

(** A server that answers and a tracker that is down at first. *)
Definition served_tracker_down_env : Env :=
  fixed_env always_ok first_write_fails (Ok two_forms)
            [ticket 1 [demographics]] true.

(** A server that answers and a verification that fails. *)
Definition served_unverified_env : Env :=
  fixed_env always_ok accepts (Ok two_forms) [ticket 100 [demographics]]
            false.

Definition two_labels : Args :=
  {| labels := [visit_data; "import_mr_sessions"]; issue_numbers := None;
     verbose := false |}.

(** How many of the requests ask to unlock a form, and how many to lock
    one. *)
Definition unlocks (rs : list Request) : nat :=
  length (filter (fun r => match r with
                           | LockingData _ _ false => true
                           | _ => false
                           end) rs).

Definition relocks (rs : list Request) : nat :=
  length (filter (fun r => match r with
                           | LockingData _ _ true => true
                           | _ => false
                           end) rs).

(** The arguments of [main] with other labels. *)
Definition with_labels (args : Args) (ls : list string) : Args :=
  {| labels := ls; issue_numbers := issue_numbers args;
     verbose := verbose args |}.

(** ** [aseba_utils.py]

    The helpers that do not touch a data frame.  A Python [str] is read
    as a string of ASCII characters: the classes [\d] and [\w] are
    modelled on those, and the statements about them ask for
    [ascii_only]. *)

Definition ascii_only (s : string) : bool :=
  forallb (fun c => (nat_of_ascii c <? 128)%nat) (list_ascii_of_string s).

(** [\d]. *)
Definition is_digit (c : ascii) : bool :=
  ((48 <=? nat_of_ascii c) && (nat_of_ascii c <=? 57))%nat.

(** [[a-h]]. *)
Definition is_a_to_h (c : ascii) : bool :=
  ((97 <=? nat_of_ascii c) && (nat_of_ascii c <=? 104))%nat.

(** [\w]: a letter, a digit or the underscore. *)
Definition is_word (c : ascii) : bool :=
  is_digit c
  || ((65 <=? nat_of_ascii c) && (nat_of_ascii c <=? 90))%nat
  || ((97 <=? nat_of_ascii c) && (nat_of_ascii c <=? 122))%nat
  || (nat_of_ascii c =? 95)%nat.

(** [$] without [re.MULTILINE]: the end of the string, or the place just
    before a line feed that ends the string. *)
Definition at_end (s : string) : bool :=
  match s with
  | EmptyString => true
  | String c EmptyString => (nat_of_ascii c =? 10)%nat
  | _ => false
  end.

(** Python's [l[0:stop]]: a negative [stop] counts from the end. *)
Definition slice_to {A} (l : list A) (stop : Z) : list A :=
  let n := Z.of_nat (length l) in
  let stop := if (stop <? 0)%Z then Z.max 0 (n + stop) else Z.min stop n in
  firstn (Z.to_nat stop) l.

(** [get_year_set(year_int)], lines 32-46. *)
Definition get_year_set (year_int : Z) : list string :=
  let events := ["baseline"] in
  let events :=
    events ++ map (fun i => (str_of_nat i ++ "y")%string) (seq 1 9) in
  let events := map (fun e => (e ++ "_visit_arm_1")%string) events in
  slice_to events (year_int + 1).

(** [re.search(r'^(baseline|\dy)', event)], its group 1. *)
Definition event_match (event : string) : option string :=
  if prefix "baseline" event then Some "baseline"
  else match event with
       | String d (String c _) =>
           if is_digit d && (nat_of_ascii c =? 121)%nat
           then Some (String d "y") else None
       | _ => None
       end.

(** [clean_up_event_string(event)], lines 118-133. *)
Definition clean_up_event_string (event : string) : string :=
  match event_match event with
  | None => event
  | Some group =>
      (* re.match('^\d', match.group(1)) *)
      if match group with String c _ => is_digit c | EmptyString => false end
      then ("followup_" ++ group)%string
      else group
  end.

Definition arm_dict : list (string * string) :=
  [ ("arm_1", "standard"); ("arm_2", "recovery");
    ("arm_3", "sleep"); ("arm_4", "maltreated") ].

(** [d.get(k)] on a dict written as its items. *)
Fixpoint dict_get (d : list (string * string)) (k : string) : option string :=
  match d with
  | [] => None
  | (k', v) :: d' => if String.eqb k k' then Some v else dict_get d' k
  end.

(** [clean_up_arm_string(arm)], lines 137-152. *)
Definition clean_up_arm_string (arm : string) : string :=
  match dict_get arm_dict arm with
  | None => arm
  | Some release_arm => release_arm
  end.

(** [\d+$], the digits it takes.  [\d+] is greedy: the longer match is
    tried first, and the match stops where [$] holds. *)
Fixpoint digits_to_end (s : string) : option string :=
  match s with
  | EmptyString => None
  | String c s' =>
      if is_digit c then
        match digits_to_end s' with
        | Some ds => Some (String c ds)
        | None => if at_end s' then Some (String c EmptyString) else None
        end
      else None
  end.

(** [_(arm_\d+)$], its group. *)
Definition arm_group (s : string) : option string :=
  if prefix "_arm_" s
  then option_map (fun ds => ("arm_" ++ ds)%string)
                  (digits_to_end (substring 5 (String.length s - 5) s))
  else None.

(** [^(\w+)_(arm_\d+)$] of line 116, the two groups: [\w+] is greedy, so
    the longest run of word characters that lets the rest match is
    taken; [None] is the row without a match. *)
Fixpoint str_extract (s : string) : option (string * string) :=
  match s with
  | EmptyString => None
  | String c s' =>
      if is_word c then
        match str_extract s' with
        | Some (visit, arm) => Some (String c visit, arm)
        | None => option_map (fun arm => (String c EmptyString, arm))
                             (arm_group s')
        end
      else None
  end.

(** The longest run of digits a string starts with, and the rest. *)
Fixpoint take_digits (s : string) : string * string :=
  match s with
  | EmptyString => (EmptyString, EmptyString)
  | String c s' =>
      if is_digit c
      then let (ds, r) := take_digits s' in (String c ds, r)
      else (EmptyString, s)
  end.

(** [(\d+)([a-h]?)$] at the start of [s], its two groups.  All the digits
    are taken: after fewer of them comes a digit, which neither [[a-h]?]
    nor [$] accepts.  Then the letter is tried before the empty group. *)
Definition colname_match_here (s : string) : option (string * string) :=
  let (ds, r) := take_digits s in
  match ds with
  | EmptyString => None
  | _ =>
      match r with
      | EmptyString => Some (ds, EmptyString)
      | String c r' =>
          if is_a_to_h c && at_end r' then Some (ds, String c EmptyString)
          else if at_end r then Some (ds, EmptyString)
          else None
      end
  end.

(** [re.search(r'(\d+)([a-h]?)$', colname)]: the first position, from the
    left, at which the pattern matches. *)
Fixpoint colname_search (s : string) : option (string * string) :=
  match colname_match_here s with
  | Some groups => Some groups
  | None =>
      match s with
      | EmptyString => None
      | String _ s' => colname_search s'
      end
  end.

(** [float(digits)] for a string of decimal digits, written as the integer
    the digits spell.  The float is that integer only while it is below
    2^53 (above, [float] rounds, and in the end gives infinity): every
    statement on a key carries that bound. *)
Definition float_of_digits (ds : string) : Z :=
  match NilEmpty.uint_of_string ds with
  | Some u => Z.of_nat (Nat.of_uint u)
  | None => 0%Z
  end.

(** [cbc_colname_sorter(colname)], lines 159-180; [None] is Python's
    [None].  [old_div] of two integers is the floor division, so the
    letter term is an integer, and the float returned is written as the
    integer it equals. *)
Definition cbc_colname_sorter (colname : string) : option Z :=
  match colname_search colname with
  | None => None
  | Some (digits, letter) =>
      let number := float_of_digits digits in
      let letter :=
        match letter with
        | String c _ => ((Z.of_nat (nat_of_ascii c) - 96) / 100)%Z
        | EmptyString => 0%Z
        end in
      Some (number + letter)%Z
  end.

(** The string is made of digits. *)
Fixpoint all_digits (s : string) : bool :=
  match s with
  | EmptyString => true
  | String c s' => is_digit c && all_digits s'
  end.

(** The last character of the string is a digit. *)
Fixpoint ends_with_digit (s : string) : bool :=
  match s with
  | EmptyString => false
  | String c EmptyString => is_digit c
  | String _ s' => ends_with_digit s'
  end.

(** No character of the string is a digit. *)
Fixpoint no_digit (s : string) : bool :=
  match s with
  | EmptyString => true
  | String c s' => negb (is_digit c) && no_digit s'
  end.

(** The string is made of word characters. *)
Fixpoint all_word (s : string) : bool :=
  match s with
  | EmptyString => true
  | String c s' => is_word c && all_word s'
  end.

(** The release keys of the standard-arm events, baseline first. *)
Definition standard_visits : list (string * string) :=
  ("baseline", "standard")
  :: map (fun i => (("followup_" ++ str_of_nat i ++ "y")%string, "standard"))
         (seq 1 9).

(** ** Running the monad *)

Lemma bind_ok A B (m : M A) (k : A -> M B) h a evs :
  m h = (Ok a, evs) ->
  bind m k h = (fst (k a (h ++ evs)), evs ++ snd (k a (h ++ evs))).
Proof.
  intros E. unfold bind. rewrite E. now destruct (k a (h ++ evs)).
Qed.

Lemma bind_raised A B (m : M A) (k : A -> M B) h e evs :
  m h = (Raised e, evs) -> bind m k h = (Raised e, evs).
Proof.
  intros E. unfold bind. now rewrite E.
Qed.

Lemma bind_eq A B (m : M A) (k : A -> M B) h a evs r evs' :
  m h = (Ok a, evs) -> k a (h ++ evs) = (r, evs') ->
  bind m k h = (r, evs ++ evs').
Proof.
  intros E K. unfold bind. now rewrite E, K.
Qed.

Lemma requests_of_app a b :
  requests_of (a ++ b) = requests_of a ++ requests_of b.
Proof. apply flat_map_app. Qed.

Lemma writes_of_app a b : writes_of (a ++ b) = writes_of a ++ writes_of b.
Proof. apply flat_map_app. Qed.

Lemma prints_of_app a b : prints_of (a ++ b) = prints_of a ++ prints_of b.
Proof. apply flat_map_app. Qed.

Lemma requests_of_requests rs : requests_of (map Redcap rs) = rs.
Proof. induction rs; simpl; [reflexivity | now f_equal]. Qed.

Lemma requests_of_prints ss : requests_of (map Printed ss) = [].
Proof. induction ss; simpl; auto. Qed.

Lemma requests_of_writes ws : requests_of (map Github ws) = [].
Proof. induction ws; simpl; auto. Qed.

Lemma writes_of_requests rs : writes_of (map Redcap rs) = [].
Proof. induction rs; simpl; auto. Qed.

Lemma writes_of_prints ss : writes_of (map Printed ss) = [].
Proof. induction ss; simpl; auto. Qed.

Lemma writes_of_writes ws : writes_of (map Github ws) = ws.
Proof. induction ws; simpl; [reflexivity | now f_equal]. Qed.

Lemma prints_of_requests rs : prints_of (map Redcap rs) = [].
Proof. induction rs; simpl; auto. Qed.

Lemma prints_of_prints ss : prints_of (map Printed ss) = ss.
Proof. induction ss; simpl; [reflexivity | now f_equal]. Qed.

Lemma prints_of_writes ws : prints_of (map Github ws) = [].
Proof. induction ws; simpl; auto. Qed.

(** Push the three projections through a trace. *)
Ltac shown :=
  repeat (rewrite ?requests_of_app, ?writes_of_app, ?prints_of_app,
           ?requests_of_requests, ?requests_of_prints, ?requests_of_writes,
           ?writes_of_requests, ?writes_of_prints, ?writes_of_writes,
           ?prints_of_requests, ?prints_of_prints, ?prints_of_writes,
           ?app_nil_r;
          cbn [app]).

(** Run the first computation of a [bind] that is known to return. *)
Ltac step E := erewrite bind_ok by exact E.

Section Runs.

Variable env : Env.
Variable resolves : ScrapedIssue.t -> bool.

Lemma run_command_run verbose c h :
  run_command env verbose c h =
  (Ok (phases_at env verbose c h),
   map Redcap (phases_of c)
   ++ map Printed (relock_report env (phases_at env verbose c h))).
Proof.
  unfold run_command, locking_test, command_test, request, bind, ret,
    print, relock_report, phases_at, relock_answer, rerun_answer,
    unlock_answer, phases_of; cbn.
  rewrite <- !app_assoc; cbn.
  destruct (ok (redcap env _ (LockingData _ _ true))); reflexivity.
Qed.

(** The loop over the commands never raises; it sends the three
    requests of each command, in order, and prints the relock reports. *)
Lemma for_commands_run verbose cs h :
  exists ps evs,
    for_commands env verbose cs h = (Ok ps, evs)
    /\ ran env verbose cs ps
    /\ requests_of evs = flat_map phases_of cs
    /\ writes_of evs = []
    /\ prints_of evs = flat_map (relock_report env) ps.
Proof.
  revert h. induction cs as [|c cs IH]; intros h.
  - exists [], []. repeat split. constructor.
  - destruct (IH (h ++ map Redcap (phases_of c)
                    ++ map Printed
                         (relock_report env (phases_at env verbose c h))))
      as (ps & evs & E & R & Q & W & P).
    eexists (_ :: ps), _. split.
    + cbn [for_commands].
      step (run_command_run verbose c h). step E. reflexivity.
    + split; [constructor; eauto|].
      cbn [fst snd]. shown. rewrite Q, W, P. repeat split.
Qed.

Lemma banner_run (verbose : bool) i h :
  (if verbose
   then print (str_repeat nl 20) ;; print (stringify env i)
   else ret tt) h
  = (Ok tt, banner env verbose i).
Proof. destruct verbose; reflexivity. Qed.

Lemma update_run i h :
  let t := ScrapedIssue.with_resolved
             i (resolves i) in
  (update env resolves i h = (Ok t, map Github (ticket_writes env t)))
  \/ (exists w ws,
         update env resolves i h = (Raised (GithubException w), map Github ws)
         /\ Forall (fun w => write_number w = ScrapedIssue.number i) ws).
Proof.
  cbn zeta. unfold update, ticket_writes, write, bind, ret. cbn.
  set (c := CreateComment _ _). set (k := CloseIssue _).
  destruct (github env h c).
  - destruct (resolves i); cbn; [|now left].
    destruct (github env _ k); cbn; [now left|].
    right. exists k, [c; k]. split; [reflexivity|]. now repeat constructor.
  - right. exists c, [c]. split; [reflexivity|]. now repeat constructor.
Qed.

(** A tracker that accepts every write lets the update return. *)
Lemma update_accepted i h :
  (forall h' w, github env h' w = true) ->
  let t := ScrapedIssue.with_resolved
             i (resolves i) in
  update env resolves i h = (Ok t, map Github (ticket_writes env t)).
Proof.
  intros A. cbn zeta. unfold update, ticket_writes, write, bind, ret. cbn.
  rewrite A. destruct (resolves i); cbn; [|reflexivity].
  now rewrite A.
Qed.

(** The body of the loop over the tickets, from the runs of its parts. *)
Lemma run_issue_eq verbose l i h ps evs ru uevs :
  for_commands env verbose (ScrapedIssue.commands i)
               (h ++ banner env verbose i) = (Ok ps, evs) ->
  update env resolves (ScrapedIssue.with_commands i (map command ps))
         ((h ++ banner env verbose i) ++ evs) = (ru, uevs) ->
  run_issue env resolves verbose l i h
  = (match ru with
     | Ok t => Ok (recorded l (t, ps))
     | Raised e => Raised e
     end,
     banner env verbose i ++ evs ++ uevs).
Proof.
  intros E U. unfold run_issue, ScrapedIssue.get_commands.
  apply bind_eq with (a := tt); [apply banner_run|].
  apply bind_eq with (1 := E).
  destruct ru as [t|e].
  - rewrite <- (app_nil_r uevs). apply bind_eq with (1 := U).
    unfold recorded, tag; cbn [fst snd].
    destruct (ScrapedIssue.resolved t); reflexivity.
  - now apply bind_raised.
Qed.

(** One pass of the loop over the tickets: all the commands of the
    ticket run, then the update either returns or raises. *)
Lemma run_issue_run verbose l i h :
  exists tp evs,
    handled env resolves verbose i tp
    /\ requests_of evs = flat_map phases_of (ScrapedIssue.commands i)
    /\ prints_of evs = ticket_prints env verbose (i, snd tp)
    /\ ((run_issue env resolves verbose l i h = (Ok (recorded l tp), evs)
         /\ writes_of evs = ticket_writes env (fst tp))
        \/ (exists w,
               run_issue env resolves verbose l i h
               = (Raised (GithubException w), evs)
               /\ Forall (fun w => write_number w = ScrapedIssue.number i)
                         (writes_of evs))).
Proof.
  destruct (for_commands_run verbose (ScrapedIssue.commands i)
                             (h ++ banner env verbose i))
    as (ps & evs & E & R & Q & W & P).
  set (i' := ScrapedIssue.with_commands i (map command ps)).
  set (t := ScrapedIssue.with_resolved
              i' (resolves i')).
  exists (t, ps).
  destruct (update_run i' ((h ++ banner env verbose i) ++ evs))
    as [U | (w & ws & U & F)]; fold t in U;
    pose proof (run_issue_eq verbose l i h ps evs _ _ E U) as RI;
    match type of RI with _ = (_, ?e) => exists e end;
    (split; [split; [exact R|reflexivity]|]);
    unfold banner in *; shown; rewrite Q, W, P;
    unfold ticket_prints; cbn [fst snd];
    (split; [reflexivity|]); (split; [reflexivity|]).
  - left. split; [exact RI|reflexivity].
  - right. exists w. split; [exact RI|exact F].
Qed.

Lemma recorded_all tps : forall l,
  processed (fold_left recorded tps l) = processed l ++ tps
  /\ closed_issues (fold_left recorded tps l)
     = closed_issues l
       ++ map tag (filter ScrapedIssue.resolved (map fst tps))
  /\ commented_issues (fold_left recorded tps l)
     = commented_issues l
       ++ map tag (filter (fun t => negb (ScrapedIssue.resolved t))
                          (map fst tps)).
Proof.
  induction tps as [|tp tps IH]; intros l; cbn [fold_left].
  - cbn. now rewrite !app_nil_r.
  - destruct (IH (recorded l tp)) as (P & C & D).
    rewrite P, C, D. unfold recorded. cbn [map filter].
    destruct (ScrapedIssue.resolved (fst tp)); cbn;
      rewrite <- ?app_assoc; repeat split.
Qed.

(** The loop over the tickets.  Either it returns, and every ticket was
    handled, or the update of one ticket raised: the tickets before it
    were handled, its own commands ran, and nothing happened for the
    tickets after it. *)
Lemma for_issues_run verbose issues : forall l h,
  exists evs,
    (exists tps,
       for_issues env resolves verbose l issues h
       = (Ok (fold_left recorded tps l), evs)
       /\ Forall2 (handled env resolves verbose) issues tps
       /\ requests_of evs
          = flat_map phases_of (flat_map ScrapedIssue.commands issues)
       /\ writes_of evs = flat_map (ticket_writes env) (map fst tps)
       /\ prints_of evs
          = flat_map (ticket_prints env verbose)
                     (combine issues (map snd tps)))
    \/ (exists pre i post tps w ws,
          issues = pre ++ i :: post
          /\ for_issues env resolves verbose l issues h
             = (Raised (GithubException w), evs)
          /\ Forall2 (handled env resolves verbose) pre tps
          /\ requests_of evs
             = flat_map phases_of
                        (flat_map ScrapedIssue.commands (pre ++ [i]))
          /\ writes_of evs
             = flat_map (ticket_writes env) (map fst tps) ++ ws
          /\ Forall (fun w => write_number w = ScrapedIssue.number i) ws).
Proof.
  induction issues as [|i issues IH]; intros l h.
  - exists []. left. exists []. repeat split. constructor.
  - destruct (run_issue_run verbose l i h)
      as (tp & evs1 & H & Q1 & P1 & [[E1 W1] | (w & E1 & F1)]).
    + destruct (IH (recorded l tp) (h ++ evs1))
        as (evs2 & [(tps & E2 & H2 & Q2 & W2 & P2)
                   | (pre & j & post & tps & w & ws
                      & -> & E2 & H2 & Q2 & W2 & F2)]);
        exists (evs1 ++ evs2).
      * left. exists (tp :: tps). cbn [for_issues fold_left].
        split; [eapply bind_eq; [exact E1|exact E2]|].
        split; [now constructor|].
        shown. rewrite Q1, Q2, W1, W2, P1, P2. cbn.
        rewrite flat_map_app. repeat split.
      * right. exists (i :: pre), j, post, (tp :: tps), w, ws.
        cbn [for_issues]. split; [reflexivity|].
        split; [eapply bind_eq; [exact E1|exact E2]|].
        split; [now constructor|].
        shown. rewrite Q1, Q2, W1, W2. cbn.
        rewrite !flat_map_app, <- !app_assoc. repeat split. exact F2.
    + exists evs1. right. exists [], i, issues, [], w, (writes_of evs1).
      cbn [for_issues]. split; [reflexivity|].
      split; [eapply bind_raised; exact E1|].
      split; [constructor|]. rewrite Q1. cbn.
      rewrite !app_nil_r. repeat split. exact F1.
Qed.

(** An exception in a prefix of the tickets is the outcome of the whole
    loop: the loop has no handler. *)
Lemma for_issues_raised verbose pre post : forall l h e evs,
  for_issues env resolves verbose l pre h = (Raised e, evs) ->
  for_issues env resolves verbose l (pre ++ post) h = (Raised e, evs).
Proof.
  induction pre as [|i pre IH]; intros l h e evs; cbn [for_issues app].
  - discriminate.
  - unfold bind.
    destruct (run_issue env resolves verbose l i h) as [[l'|e'] evs1];
      [|trivial].
    destruct (for_issues env resolves verbose l' pre (h ++ evs1))
      as [r evs2] eqn:F.
    intros [= -> <-]. now rewrite (IH _ _ _ _ F).
Qed.

Lemma summary_run (verbose : bool) l h :
  (if verbose
   then print (closed_summary l) ;; print (commented_summary l)
   else ret tt) h
  = (Ok tt, map Printed (summary verbose l)).
Proof. destruct verbose; reflexivity. Qed.

Lemma process_returns verbose issues h l evs :
  for_issues env resolves verbose no_locals issues h = (Ok l, evs) ->
  process env resolves verbose issues h
  = (Ok l, evs ++ map Printed (summary verbose l)).
Proof.
  intros E. unfold process. apply bind_eq with (1 := E).
  rewrite <- (app_nil_r (map _ _)).
  now apply bind_eq with (a := tt); [apply summary_run|].
Qed.

Lemma process_raises verbose issues h e evs :
  for_issues env resolves verbose no_locals issues h = (Raised e, evs) ->
  process env resolves verbose issues h = (Raised e, evs).
Proof. intros E. unfold process. now apply bind_raised. Qed.

(** [run_batch] past a verification that passed. *)
Lemma run_batch_verified label nums md verbose h :
  verify_scraped_issues env (scraped env label nums md verbose) = true ->
  run_batch env resolves label nums md verbose h
  = (match fst (process env resolves verbose
                        (scraped env label nums md verbose) h)
     with
     | Ok l => Ok (Some l)
     | Raised e => Raised e
     end,
     snd (process env resolves verbose (scraped env label nums md verbose) h)).
Proof.
  intros V. unfold run_batch. rewrite V. cbn [negb]. unfold bind at 1.
  destruct (process _ _ _ _) as [[l|e] evs]; cbn; [|reflexivity].
  now rewrite app_nil_r.
Qed.

Lemma run_batch_aborted label nums md verbose h :
  verify_scraped_issues env (scraped env label nums md verbose) = false ->
  run_batch env resolves label nums md verbose h
  = (Ok None, [Printed "Aborting..."]).
Proof. intros V. unfold run_batch. now rewrite V. Qed.

(** With a tracker that accepts every write the loop returns. *)
Lemma for_issues_accepted verbose issues :
  (forall h w, github env h w = true) ->
  forall l h, exists l' evs,
    for_issues env resolves verbose l issues h = (Ok l', evs).
Proof.
  intros A. induction issues as [|i issues IH]; intros l h.
  - now exists l, [].
  - destruct (for_commands_run verbose (ScrapedIssue.commands i)
                               (h ++ banner env verbose i))
      as (ps & evs & E & _).
    pose proof (update_accepted
                  (ScrapedIssue.with_commands i (map command ps))
                  ((h ++ banner env verbose i) ++ evs) A) as U.
    cbn zeta in U.
    pose proof (run_issue_eq verbose l i h ps evs _ _ E U) as R.
    cbn iota in R.
    match type of R with
    | _ = (Ok ?l1, ?evs1) =>
        destruct (IH l1 (h ++ evs1)) as (l' & evs' & F);
        exists l', (evs1 ++ evs')
    end.
    cbn [for_issues]. eapply bind_eq; [exact R|exact F].
Qed.

(** [run_batch] returns, past the loop, when the verification passes and
    the tracker accepts every write. *)
Lemma run_batch_returns label nums md verbose h :
  verify_scraped_issues env (scraped env label nums md verbose) = true ->
  (forall h' w, github env h' w = true) ->
  exists l evs,
    run_batch env resolves label nums md verbose h = (Ok (Some l), evs).
Proof.
  intros V A.
  destruct (for_issues_accepted
              verbose (scraped env label nums md verbose) A no_locals h)
    as (l & evs & F).
  rewrite (run_batch_verified _ _ _ _ _ V).
  rewrite (process_returns _ _ _ _ _ F). cbn [fst snd]. eauto.
Qed.

(** A run of [run_batch] that returns after the loop. *)
Lemma run_batch_returned label nums md verbose h l evs :
  run_batch env resolves label nums md verbose h = (Ok (Some l), evs) ->
  exists tps evs',
    l = fold_left recorded tps no_locals
    /\ evs = evs' ++ map Printed (summary verbose l)
    /\ Forall2 (handled env resolves verbose)
               (scraped env label nums md verbose) tps
    /\ requests_of evs'
       = flat_map phases_of
                  (flat_map ScrapedIssue.commands
                            (scraped env label nums md verbose))
    /\ writes_of evs' = flat_map (ticket_writes env) (map fst tps)
    /\ prints_of evs'
       = flat_map (ticket_prints env verbose)
                  (combine (scraped env label nums md verbose)
                           (map snd tps)).
Proof.
  destruct (verify_scraped_issues env (scraped env label nums md verbose))
    eqn:V.
  - rewrite (run_batch_verified _ _ _ _ _ V).
    destruct (for_issues_run verbose (scraped env label nums md verbose)
                             no_locals h)
      as (evs' & [(tps & E & H & Q & W & P)
                 | (pre & i & post & tps & w & ws & _ & E & _)]).
    + rewrite (process_returns _ _ _ _ _ E). cbn [fst snd].
      intros [= <- <-]. exists tps, evs'. repeat split; assumption.
    + rewrite (process_raises _ _ _ _ _ E). discriminate.
  - rewrite (run_batch_aborted _ _ _ _ _ V). discriminate.
Qed.

End Runs.

(** ** The lock-scoped execution of one command *)

(** C9: the unlock and the relock objects of a command carry the study id
    and the form of the command itself (and the same verbosity); they
    differ in the lock flag only, [False] for the unlock and [True] for the
    relock, and so do the requests they send around the re-run. *)
Theorem lock_phases_target_the_command env verbose c h :
  exists p evs,
    run_command env verbose c h = (Ok p, evs)
    /\ ExecRedcapLockingData.study_id (unlock_command p) = Command.study_id c
    /\ ExecRedcapLockingData.form (unlock_command p) = Command.form c
    /\ ExecRedcapLockingData.lock (unlock_command p) = false
    /\ ExecRedcapLockingData.study_id (lock_command p) = Command.study_id c
    /\ ExecRedcapLockingData.form (lock_command p) = Command.form c
    /\ ExecRedcapLockingData.lock (lock_command p) = true
    /\ ExecRedcapLockingData.verbose (unlock_command p)
       = ExecRedcapLockingData.verbose (lock_command p)
    /\ Command.study_id (command p) = Command.study_id c
    /\ Command.form (command p) = Command.form c
    /\ requests_of evs
       = [ LockingData (Command.study_id c) (Command.form c) false;
           Rerun (Command.study_id c) (Command.form c);
           LockingData (Command.study_id c) (Command.form c) true ].
Proof.
  exists (phases_at env verbose c h). eexists.
  split; [apply run_command_run|].
  shown. repeat split.
Qed.

(** C7: while a command is executed the script prints exactly when the
    relock failed, and what it prints then is the relock report, which
    carries the result of the relock object, that is the detail the record
    store gave for the relock request. *)
Theorem relock_failure_is_reported env verbose c h :
  exists p evs,
    run_command env verbose c h = (Ok p, evs)
    /\ ExecRedcapLockingData.success (lock_command p)
       = ok (relock_answer env c h)
    /\ ExecRedcapLockingData.result (lock_command p)
       = detail (relock_answer env c h)
    /\ prints_of evs
       = if ok (relock_answer env c h) then []
         else [("Errors relocking:" ++ nl
                 ++ stringify_result env (lock_command p))%string].
Proof.
  exists (phases_at env verbose c h). eexists.
  split; [apply run_command_run|].
  shown. repeat split.
Qed.

(** ** The batch *)

(** C2: the requests the record store receives during a batch are the
    triples unlock, re-run, relock of the commands, one triple after the
    other in the order of the tickets and of their commands, whatever the
    record store answers: each command is relocked exactly once, after its
    unlock and its re-run and before the next command is unlocked.  The
    triples are those of all the tickets when the batch returns past the
    verification. *)
Theorem relock_once_per_command env resolves label nums md verbose h :
  exists done rest,
    scraped env label nums md verbose = done ++ rest
    /\ requests_of (snd (run_batch env resolves label nums md verbose h))
       = flat_map phases_of (flat_map ScrapedIssue.commands done)
    /\ (forall l,
          fst (run_batch env resolves label nums md verbose h) = Ok (Some l) ->
          rest = []).
Proof.
  destruct (verify_scraped_issues env (scraped env label nums md verbose))
    eqn:V.
  - rewrite (run_batch_verified _ _ _ _ _ _ _ V).
    destruct (for_issues_run env resolves verbose
                             (scraped env label nums md verbose)
                             no_locals h)
      as (evs & [(tps & E & H & Q & W & P)
                | (pre & i & post & tps & w & ws & S & E & _ & Q & _)]).
    + rewrite (process_returns _ _ _ _ _ _ _ E). cbn [fst snd].
      exists (scraped env label nums md verbose), [].
      rewrite app_nil_r. shown. rewrite Q. repeat split.
    + rewrite (process_raises _ _ _ _ _ _ _ E). cbn [fst snd].
      exists (pre ++ [i]), post. rewrite <- app_assoc. cbn [app].
      repeat split; [exact S|exact Q|discriminate].
  - rewrite (run_batch_aborted _ _ _ _ _ _ _ V). cbn [fst snd].
    exists [], (scraped env label nums md verbose).
    repeat split. discriminate.
Qed.

(** C3: when the verification of the scraped tickets fails, [run_batch]
    prints that it aborts and returns: no request goes to the record
    store and no write to the tracker. *)
Theorem failed_verification_aborts env resolves label nums md verbose h :
  verify_scraped_issues env (scraped env label nums md verbose) = false ->
  run_batch env resolves label nums md verbose h
  = (Ok None, [Printed "Aborting..."])
  /\ requests_of (snd (run_batch env resolves label nums md verbose h)) = []
  /\ writes_of (snd (run_batch env resolves label nums md verbose h)) = [].
Proof.
  intros V. rewrite (run_batch_aborted _ _ _ _ _ _ _ V). repeat split.
Qed.

Lemma failed_verification_aborts_witness :
  verify_scraped_issues
    unverified_env (scraped unverified_env visit_data None [] true)
  = false
  /\ run_batch unverified_env reruns_succeeded visit_data None [] true []
     = (Ok None, [Printed "Aborting..."])
  /\ requests_of
       (snd (run_batch unverified_env reruns_succeeded visit_data None []
                       true []))
     = []
  /\ writes_of
       (snd (run_batch unverified_env reruns_succeeded visit_data None []
                       true []))
     = [].
Proof.
  split; [reflexivity|].
  apply (failed_verification_aborts
           unverified_env reruns_succeeded visit_data None [] true []).
  reflexivity.
Defined.

(** *** The tickets after the loop *)

Lemma handled_number env resolves verbose i tp :
  handled env resolves verbose i tp ->
  ScrapedIssue.number (fst tp) = ScrapedIssue.number i.
Proof. intros [_ ->]. reflexivity. Qed.

Lemma handled_numbers env resolves verbose issues tps :
  Forall2 (handled env resolves verbose) issues tps ->
  map ScrapedIssue.number (map fst tps) = map ScrapedIssue.number issues.
Proof.
  induction 1 as [|i tp issues tps H _ IH]; cbn; [reflexivity|].
  now rewrite IH, (handled_number _ _ _ _ _ H).
Qed.

Lemma commented_numbers_writes env ts :
  commented_numbers (flat_map (ticket_writes env) ts)
  = map ScrapedIssue.number ts.
Proof.
  induction ts as [|t ts IH]; cbn; [reflexivity|].
  unfold commented_numbers in *. rewrite flat_map_app, IH.
  now destruct (ScrapedIssue.resolved t).
Qed.

Lemma closed_numbers_writes env ts :
  closed_numbers (flat_map (ticket_writes env) ts)
  = map ScrapedIssue.number (filter ScrapedIssue.resolved ts).
Proof.
  induction ts as [|t ts IH]; cbn; [reflexivity|].
  unfold closed_numbers in *. rewrite flat_map_app, IH.
  now destruct (ScrapedIssue.resolved t).
Qed.

Lemma quiet_prints env (issues : list ScrapedIssue.t) :
  forall tps : list (ScrapedIssue.t * list Phases),
  length issues = length tps ->
  flat_map (ticket_prints env false) (combine issues (map snd tps))
  = flat_map (relock_report env) (flat_map snd tps).
Proof.
  induction issues as [|i issues IH]; intros [|tp tps]; cbn;
    try discriminate; [reflexivity|].
  intros [= L]. rewrite flat_map_app, (IH _ L). reflexivity.
Qed.

(** C6: after a batch that returned, every scraped ticket was updated
    once, in order: the tracker received one comment per ticket, and a
    close for exactly the resolved ones; the list of the closed holds the
    tags of the resolved tickets and the list of the commented those of
    the others, so that every ticket is in one list and one only. *)
Theorem tickets_updated_once_and_recorded
        env resolves label nums md verbose h l evs :
  run_batch env resolves label nums md verbose h = (Ok (Some l), evs) ->
  map ScrapedIssue.number (map fst (processed l))
  = map ScrapedIssue.number (scraped env label nums md verbose)
  /\ commented_numbers (writes_of evs)
     = map ScrapedIssue.number (scraped env label nums md verbose)
  /\ closed_numbers (writes_of evs)
     = map ScrapedIssue.number
           (filter ScrapedIssue.resolved (map fst (processed l)))
  /\ closed_issues l
     = map tag (filter ScrapedIssue.resolved (map fst (processed l)))
  /\ commented_issues l
     = map tag (filter (fun t => negb (ScrapedIssue.resolved t))
                       (map fst (processed l)))
  /\ length (closed_issues l) + length (commented_issues l)
     = length (scraped env label nums md verbose).
Proof.
  intros R.
  destruct (run_batch_returned _ _ _ _ _ _ _ _ _ R)
    as (tps & evs' & -> & -> & H & _ & W & _).
  destruct (recorded_all tps no_locals) as (P & C & D).
  cbn [processed closed_issues commented_issues no_locals app] in P, C, D.
  rewrite P, C, D. shown. rewrite W.
  rewrite commented_numbers_writes, closed_numbers_writes.
  rewrite (handled_numbers _ _ _ _ _ H).
  repeat split.
  rewrite !length_map, filter_length, length_map.
  symmetry. exact (Forall2_length H).
Qed.

Lemma tickets_updated_once_and_recorded_witness :
  let r :=
    run_batch all_fine_env reruns_succeeded visit_data None [] false []
  in
  let l := locals_of r in
  r = (Ok (Some l), snd r)
  /\ map ScrapedIssue.number (map fst (processed l)) = [100; 101; 102]
  /\ commented_numbers (writes_of (snd r)) = [100; 101; 102]
  /\ closed_numbers (writes_of (snd r)) = [100; 101]
  /\ closed_issues l = ["#100"; "#101"]
  /\ commented_issues l = ["#102"]
  /\ length (closed_issues l) + length (commented_issues l) = 3.
Proof.
  intros r l.
  assert (R : r = (Ok (Some l), snd r)) by reflexivity.
  split; [exact R|].
  exact (tickets_updated_once_and_recorded
           all_fine_env reruns_succeeded visit_data None [] false [] l (snd r)
           R).
Defined.

(** C4, as the code has it: the loop over the tickets has no handler, so
    an exception raised while a ticket is handled is the outcome of the
    whole batch; the events of the batch are those up to the exception,
    and the tickets after the failing one are not touched. *)
Theorem failure_stops_the_batch
        env resolves label nums md verbose h pre post e evs :
  scraped env label nums md verbose = pre ++ post ->
  verify_scraped_issues env (pre ++ post) = true ->
  for_issues env resolves verbose no_locals pre h = (Raised e, evs) ->
  run_batch env resolves label nums md verbose h = (Raised e, evs).
Proof.
  intros S V F. rewrite <- S in V.
  rewrite (run_batch_verified _ _ _ _ _ _ _ V), S.
  now rewrite (process_raises _ _ _ _ _ _ _
                 (for_issues_raised _ _ _ _ post _ _ _ _ F)).
Qed.

Lemma failure_stops_the_batch_witness :
  let pre := [ticket 1 [demographics]] in
  let post := [ticket 2 [clinical]] in
  let e := GithubException (CreateComment 1 "ok") in
  let evs := map Redcap (phases_of demographics)
             ++ [Github (CreateComment 1 "ok")] in
  scraped tracker_down_env visit_data None [] false = pre ++ post
  /\ verify_scraped_issues tracker_down_env (pre ++ post) = true
  /\ for_issues tracker_down_env reruns_succeeded false no_locals pre []
     = (Raised e, evs)
  /\ run_batch tracker_down_env reruns_succeeded visit_data None [] false []
     = (Raised e, evs).
Proof.
  intros pre post e evs.
  assert (S : scraped tracker_down_env visit_data None [] false
              = pre ++ post) by reflexivity.
  assert (V : verify_scraped_issues tracker_down_env (pre ++ post) = true)
    by reflexivity.
  assert (F : for_issues tracker_down_env reruns_succeeded false no_locals
                         pre []
              = (Raised e, evs)) by reflexivity.
  split; [exact S|]. split; [exact V|]. split; [exact F|].
  exact (failure_stops_the_batch
           tracker_down_env reruns_succeeded visit_data None [] false []
           pre post
           e evs S V F).
Defined.

(** C4 as stated fails: the tracker is down when ticket 1 is commented,
    and ticket 2, which comes after it, never gets its comment. *)
Lemma ticket_after_failure_untouched :
  ~ (forall env resolves label nums md verbose h i,
        verify_scraped_issues env (scraped env label nums md verbose) = true ->
        In i (scraped env label nums md verbose) ->
        exists text,
          In (Github (CreateComment (ScrapedIssue.number i) text))
             (snd (run_batch env resolves label nums md verbose h))).
Proof.
  intros C.
  destruct (C tracker_down_env reruns_succeeded visit_data None [] false []
              (ticket 2 [clinical]) eq_refl (or_intror (or_introl eq_refl)))
    as (text & I).
  vm_compute in I.
  repeat (destruct I as [I | I]; [discriminate I|]). exact I.
Qed.

(** C5, as the code has it: the summary is under [if verbose].  A batch
    that returns with [verbose] off prints the reports of the relocks
    that failed and nothing else; with [verbose] on it prints, for each
    ticket, twenty line feeds, the ticket and the relock reports of its
    commands, and at the end the closed and the commented tickets. *)
Theorem prints_of_a_batch env resolves label nums md verbose h l evs :
  run_batch env resolves label nums md verbose h = (Ok (Some l), evs) ->
  prints_of evs
  = if verbose
    then flat_map (ticket_prints env true)
                  (combine (scraped env label nums md true)
                           (map snd (processed l)))
         ++ [closed_summary l; commented_summary l]
    else flat_map (relock_report env) (flat_map snd (processed l)).
Proof.
  intros R.
  destruct (run_batch_returned _ _ _ _ _ _ _ _ _ R)
    as (tps & evs' & -> & -> & H & _ & _ & P).
  destruct (recorded_all tps no_locals) as (T & _).
  cbn [processed no_locals app] in T. rewrite T.
  shown. rewrite P. destruct verbose; cbn [summary]; [reflexivity|].
  rewrite app_nil_r. apply quiet_prints. exact (Forall2_length H).
Qed.

Lemma prints_of_a_batch_witness :
  let r :=
    run_batch relock_fails_env reruns_succeeded visit_data None [] false []
  in
  r = (Ok (Some (locals_of r)), snd r)
  /\ prints_of (snd r)
     = flat_map (relock_report relock_fails_env)
                (flat_map snd (processed (locals_of r))).
Proof.
  intros r.
  assert (R : r = (Ok (Some (locals_of r)), snd r)) by reflexivity.
  split; [exact R|].
  exact (prints_of_a_batch
           relock_fails_env reruns_succeeded visit_data None [] false []
           (locals_of r) (snd r) R).
Defined.

(** C5 as stated fails: with [verbose] off a batch in which nothing goes
    wrong prints nothing at all, and no summary. *)
Lemma quiet_batch_prints_no_summary :
  ~ (forall env resolves label nums md h l evs,
        run_batch env resolves label nums md false h = (Ok (Some l), evs) ->
        prints_of evs = [closed_summary l; commented_summary l]).
Proof.
  intros C.
  pose (r := run_batch all_fine_env reruns_succeeded visit_data None []
                       false []).
  assert (R : r = (Ok (Some (locals_of r)), snd r)) by reflexivity.
  specialize (C _ _ _ _ _ _ _ _ R). discriminate C.
Qed.

(** ** [main] *)

Lemma seen_before x seen :
  existsb (String.eqb x) seen = true <-> In x seen.
Proof.
  rewrite existsb_exists. split.
  - intros (y & I & E). apply String.eqb_eq in E. now subst.
  - intros I. exists x. split; [exact I|apply String.eqb_refl].
Qed.

Lemma unique_from_in seen l x :
  In x (unique_from seen l) <-> In x l /\ ~ In x seen.
Proof.
  revert seen. induction l as [|y l IH]; intros seen; cbn; [tauto|].
  destruct (existsb (String.eqb y) seen) eqn:E.
  - apply seen_before in E. rewrite IH. split.
    + tauto.
    + intros [[-> | I] N]; [contradiction|tauto].
  - assert (N : ~ In y seen)
      by (intros I; apply seen_before in I; congruence).
    cbn. rewrite IH. cbn. split.
    + intros [-> | [I M]]; [tauto|]. split; [tauto|]. intros J. apply M. tauto.
    + intros [[-> | I] M]; [tauto|].
      destruct (string_dec y x) as [-> | D]; [tauto|]. right.
      split; [exact I|]. intros [J | J]; [congruence|contradiction].
Qed.

Lemma unique_from_nodup seen l : NoDup (unique_from seen l).
Proof.
  revert seen. induction l as [|y l IH]; intros seen; cbn; [constructor|].
  destruct (existsb (String.eqb y) seen); [apply IH|].
  constructor; [|apply IH].
  rewrite unique_from_in. cbn. tauto.
Qed.

Lemma data_frame_rows (f : string -> string) forms :
  data_frame (map f forms) forms
  = map (fun form => {| form_name := form; field_name := f form |}) forms.
Proof.
  unfold data_frame. induction forms as [|x forms IH]; cbn; [reflexivity|].
  now rewrite IH.
Qed.

(** C8: when the connection is made, the metadata [main] hands to
    [run_batch], for every label, is the exported table followed by the
    synthesized rows: one row for every distinct form name of the table
    and no other, each pairing its form with the field [form]_complete. *)
Theorem metadata_has_complete_fields env resolves args h api :
  connect_server env = Ok api ->
  main env resolves args h
  = for_labels (labels args)
               (fun label =>
                  run_batch env resolves label (issue_numbers args)
                            (add_complete_fields (export_metadata api))
                            (verbose args)) h
  /\ exists complete_fields,
       add_complete_fields (export_metadata api)
       = export_metadata api ++ complete_fields
       /\ NoDup (map form_name complete_fields)
       /\ (forall form,
             In form (map form_name complete_fields)
             <-> In form (map form_name (export_metadata api)))
       /\ (forall row,
             In row complete_fields ->
             field_name row = (form_name row ++ "_complete")%string).
Proof.
  intros E. split.
  - unfold main, bind, connect. rewrite E. cbn. rewrite app_nil_r.
    now destruct (for_labels _ _ h).
  - unfold add_complete_fields. rewrite data_frame_rows.
    eexists. split; [reflexivity|].
    rewrite map_map. cbn. rewrite map_id. unfold unique.
    split; [apply unique_from_nodup|]. split.
    + intros form. rewrite unique_from_in. cbn. tauto.
    + intros row I. apply in_map_iff in I. destruct I as (form & <- & _).
      reflexivity.
Qed.

Lemma metadata_has_complete_fields_witness :
  connect_server served_env = Ok two_forms
  /\ main served_env reruns_succeeded one_label []
     = for_labels (labels one_label)
                  (fun label =>
                     run_batch served_env reruns_succeeded label
                               (issue_numbers one_label)
                               (add_complete_fields
                                  (export_metadata two_forms))
                               (verbose one_label)) []
  /\ exists complete_fields,
       add_complete_fields (export_metadata two_forms)
       = export_metadata two_forms ++ complete_fields
       /\ NoDup (map form_name complete_fields)
       /\ (forall form,
             In form (map form_name complete_fields)
             <-> In form (map form_name (export_metadata two_forms)))
       /\ (forall row,
             In row complete_fields ->
             field_name row = (form_name row ++ "_complete")%string).
Proof.
  split; [reflexivity|].
  exact (metadata_has_complete_fields served_env reruns_succeeded one_label
                                      [] two_forms
                                      eq_refl).
Defined.

(** The handler of [main] when the exception has a message: the message
    is printed, the connection stays [None], and the export of the
    metadata is attempted on it. *)
Lemma connection_failure_with_message env resolves args h e m :
  connect_server env = Raised e -> message e = Some m ->
  main env resolves args h
  = (Raised (AttributeError "export_metadata"), [Printed m]).
Proof.
  intros E M. unfold main, bind, connect. now rewrite E, M.
Qed.

Example refused_connection_is_printed :
  main refused_env reruns_succeeded one_label []
  = (Raised (AttributeError "export_metadata"), [Printed "refused"]).
Proof. reflexivity. Qed.

(** C10, at the failing input: when the exception of the connection has
    no [message] attribute, the handler itself raises; [main] ends there
    and the export of the metadata is never attempted. *)
Theorem connection_failure_without_message env resolves args h e :
  connect_server env = Raised e -> message e = None ->
  main env resolves args h = (Raised (AttributeError "message"), []).
Proof.
  intros E M. unfold main, bind, connect. now rewrite E, M.
Qed.

Lemma connection_failure_without_message_witness :
  connect_server tracker_down_env = Raised (ServerError None)
  /\ message (ServerError None) = None
  /\ main tracker_down_env reruns_succeeded one_label []
     = (Raised (AttributeError "message"), []).
Proof.
  split; [reflexivity|]. split; [reflexivity|].
  exact (connection_failure_without_message
           tracker_down_env reruns_succeeded one_label [] (ServerError None)
           eq_refl eq_refl).
Defined.

(** ** The event names of [get_year_set] *)

Lemma slice_to_nonnegative A (l : list A) stop :
  (0 <= stop)%Z ->
  slice_to l stop = firstn (Z.to_nat (Z.min stop (Z.of_nat (length l)))) l.
Proof.
  intros H. unfold slice_to.
  now replace (stop <? 0)%Z with false by (symmetry; apply Z.ltb_ge; lia).
Qed.

Lemma slice_to_negative A (l : list A) stop :
  (stop < 0)%Z ->
  slice_to l stop
  = firstn (Z.to_nat (Z.max 0 (Z.of_nat (length l) + stop))) l.
Proof.
  intros H. unfold slice_to.
  now replace (stop <? 0)%Z with true by (symmetry; apply Z.ltb_lt; lia).
Qed.

Lemma year_set_nonnegative y :
  (0 <= y)%Z ->
  get_year_set y = firstn (Z.to_nat (Z.min (y + 1) 10)) (get_year_set 9).
Proof.
  intros H. unfold get_year_set.
  rewrite !slice_to_nonnegative by lia. cbn [length map app seq].
  change (Z.to_nat (Z.min (9 + 1) (Z.of_nat 10))) with 10%nat.
  change (Z.of_nat 10) with 10%Z.
  rewrite firstn_firstn. f_equal. lia.
Qed.

(** X1: for a year that is not negative, [get_year_set] gives the events
    from baseline up to and including that year, ten at most: their
    number is [min (year + 1) 10], the first is the baseline, and the set
    of a year is the set of the year before followed by one more event
    or, from year 9 on, by nothing. *)
Theorem year_sets_grow_by_one y :
  (0 <= y)%Z ->
  length (get_year_set y) = Z.to_nat (Z.min (y + 1) 10)
  /\ hd EmptyString (get_year_set y) = "baseline_visit_arm_1"
  /\ get_year_set (y + 1)
     = get_year_set y
       ++ if (y <? 9)%Z
          then [(str_of_nat (Z.to_nat (y + 1)) ++ "y_visit_arm_1")%string]
          else [].
Proof.
  intros H.
  rewrite (year_set_nonnegative (y + 1)) by lia.
  rewrite (year_set_nonnegative y) by lia.
  destruct (Z.ltb_spec y 9) as [L | L].
  - assert (E : exists n, (n < 9)%nat /\ y = Z.of_nat n)
      by (exists (Z.to_nat y); lia).
    destruct E as (n & Hn & ->).
    do 9 (destruct n as [|n]; [repeat split|]). lia.
  - rewrite !Z.min_r by lia. repeat split.
Qed.

Lemma year_sets_grow_by_one_witness :
  (0 <= 3)%Z
  /\ length (get_year_set 3) = Z.to_nat (Z.min (3 + 1) 10)
  /\ hd EmptyString (get_year_set 3) = "baseline_visit_arm_1"
  /\ get_year_set (3 + 1)
     = get_year_set 3
       ++ if (3 <? 9)%Z
          then [(str_of_nat (Z.to_nat (3 + 1)) ++ "y_visit_arm_1")%string]
          else [].
Proof.
  split; [lia|]. apply (year_sets_grow_by_one 3). lia.
Defined.

(** X2: a year below -1 is not refused: the slice counts it from the
    end, so the set holds the first [year + 11] events (none from -11
    down), and for instance year -2 gives the nine events up to year 8. *)
Theorem year_below_minus_one_counts_from_the_end y :
  (y < -1)%Z ->
  get_year_set y = firstn (Z.to_nat (y + 11)) (get_year_set 9).
Proof.
  intros H. unfold get_year_set.
  rewrite slice_to_negative, slice_to_nonnegative by lia.
  cbn [length map app seq].
  change (Z.to_nat (Z.min (9 + 1) (Z.of_nat 10))) with 10%nat.
  change (Z.of_nat 10) with 10%Z.
  rewrite firstn_firstn. f_equal. lia.
Qed.

Lemma year_below_minus_one_counts_from_the_end_witness :
  (-2 < -1)%Z
  /\ get_year_set (-2) = firstn (Z.to_nat (-2 + 11)) (get_year_set 9).
Proof.
  split; [lia|]. apply (year_below_minus_one_counts_from_the_end (-2)). lia.
Defined.

(** ** Release names of arms and visits *)

(** X3: [clean_up_arm_string] never gives back a REDCap arm it knows: the
    four arms of its table go to their release names, any other string is
    kept, and cleaning a second time changes nothing. *)
Theorem arm_cleaning_is_idempotent arm :
  dict_get arm_dict (clean_up_arm_string arm) = None
  /\ clean_up_arm_string (clean_up_arm_string arm) = clean_up_arm_string arm.
Proof.
  assert (N : dict_get arm_dict (clean_up_arm_string arm) = None).
  { unfold clean_up_arm_string. destruct (dict_get arm_dict arm) eqn:E.
    - cbn in E.
      repeat match type of E with
             | (if ?b then _ else _) = _ => destruct b
             end;
        try discriminate; injection E as <-; reflexivity.
    - exact E. }
  split; [exact N|].
  unfold clean_up_arm_string at 1. now rewrite N.
Qed.

Lemma event_cleaning_cases event :
  clean_up_event_string event = "baseline"
  \/ (exists d, is_digit d = true
                /\ clean_up_event_string event
                   = ("followup_" ++ String d "y")%string)
  \/ clean_up_event_string event = event.
Proof.
  unfold clean_up_event_string, event_match.
  destruct (prefix "baseline" event); [now left|].
  destruct event as [|d [|c rest]]; try (now right; right).
  destruct (is_digit d && (nat_of_ascii c =? 121)%nat) eqn:D;
    [|now right; right].
  apply andb_true_iff in D. destruct D as [D _]. rewrite D.
  right. left. now exists d.
Qed.

(** X4: [clean_up_event_string] gives [baseline] for a name that starts
    with it, [followup_Ny] for a name that starts with a digit [N] and
    [y], and the name itself otherwise; what it gives it leaves alone, so
    cleaning a second time changes nothing. *)
Theorem event_cleaning_is_idempotent event :
  ascii_only event = true ->
  (clean_up_event_string event = "baseline"
   \/ (exists d, is_digit d = true
                 /\ clean_up_event_string event
                    = ("followup_" ++ String d "y")%string)
   \/ clean_up_event_string event = event)
  /\ clean_up_event_string (clean_up_event_string event)
     = clean_up_event_string event.
Proof.
  intros _. split; [apply event_cleaning_cases|].
  destruct (event_cleaning_cases event) as [E | [(d & _ & E) | E]];
    rewrite E; [reflexivity|reflexivity|exact E].
Qed.

Lemma event_cleaning_is_idempotent_witness :
  ascii_only "1y_visit" = true
  /\ (clean_up_event_string "1y_visit" = "baseline"
      \/ (exists d, is_digit d = true
                    /\ clean_up_event_string "1y_visit"
                       = ("followup_" ++ String d "y")%string)
      \/ clean_up_event_string "1y_visit" = "1y_visit")
  /\ clean_up_event_string (clean_up_event_string "1y_visit")
     = clean_up_event_string "1y_visit".
Proof.
  split; [reflexivity|].
  apply (event_cleaning_is_idempotent "1y_visit"). reflexivity.
Defined.

(** X5: the event names of [get_year_set] are names the conversion of
    [api_result_to_release_format] understands: the pattern of line 116
    splits each one into a visit and the arm [arm_1], and the two
    clean-ups turn them into [baseline] or [followup_Ny] and
    [standard], year by year. *)
Theorem year_sets_convert_to_release_keys y :
  (0 <= y)%Z ->
  map (fun e =>
         option_map (fun va => (clean_up_event_string (fst va),
                                clean_up_arm_string (snd va)))
                    (str_extract e))
      (get_year_set y)
  = map Some (firstn (Z.to_nat (Z.min (y + 1) 10)) standard_visits).
Proof.
  intros H. rewrite (year_set_nonnegative y H).
  assert (E : (Z.to_nat (Z.min (y + 1) 10) <= 10)%nat) by lia.
  revert E. generalize (Z.to_nat (Z.min (y + 1) 10)). intros n E.
  do 11 (destruct n as [|n]; [reflexivity|]). lia.
Qed.

Lemma year_sets_convert_to_release_keys_witness :
  (0 <= 2)%Z
  /\ map (fun e =>
            option_map (fun va => (clean_up_event_string (fst va),
                                   clean_up_arm_string (snd va)))
                       (str_extract e))
         (get_year_set 2)
     = map Some (firstn (Z.to_nat (Z.min (2 + 1) 10)) standard_visits).
Proof.
  split; [lia|]. apply (year_sets_convert_to_release_keys 2). lia.
Defined.

(** ** The sort key of the CBCL columns *)

Lemma digit_is_no_line_feed d :
  is_digit d = true -> (nat_of_ascii d =? 10)%nat = false.
Proof.
  unfold is_digit. intros H. apply andb_true_iff in H. destruct H as [H _].
  apply Nat.leb_le in H. apply Nat.eqb_neq. lia.
Qed.

Lemma digit_is_no_letter d : is_digit d = true -> is_a_to_h d = false.
Proof.
  unfold is_digit, is_a_to_h. intros H.
  apply andb_true_iff in H. destruct H as [_ H]. apply Nat.leb_le in H.
  apply andb_false_iff. left. apply Nat.leb_gt. lia.
Qed.

Lemma letter_is_no_digit c : is_a_to_h c = true -> is_digit c = false.
Proof.
  intros H. destruct (is_digit c) eqn:D; [|reflexivity].
  now rewrite (digit_is_no_letter _ D) in H.
Qed.

Lemma not_at_end_before_digit r d rest :
  is_digit d = true -> at_end (r ++ String d rest) = false.
Proof.
  intros D. destruct r as [|x [|y r]]; cbn.
  - destruct rest; [apply digit_is_no_line_feed, D|reflexivity].
  - reflexivity.
  - reflexivity.
Qed.

(** The digits of a name are taken up to its first other character. *)
Lemma take_digits_run ds r :
  all_digits ds = true ->
  match r with String c _ => is_digit c = false | EmptyString => True end ->
  take_digits (ds ++ r) = (ds, r).
Proof.
  intros A R. induction ds as [|d ds IH]; cbn in *.
  - destruct r as [|c r]; [reflexivity|]. cbn. now rewrite R.
  - apply andb_true_iff in A. destruct A as [D A].
    now rewrite D, (IH A).
Qed.

(** A run of digits that starts inside [p] ends inside [p], when [p] does
    not end with a digit. *)
Lemma take_digits_inside p rest :
  p <> EmptyString -> ends_with_digit p = false ->
  exists qs y r,
    take_digits (p ++ rest) = (qs, String y (r ++ rest))
    /\ is_digit y = false.
Proof.
  induction p as [|x p IH]; [congruence|]. intros _ E. cbn [append take_digits].
  destruct (is_digit x) eqn:X.
  - destruct p as [|x' p]; [cbn in E; congruence|].
    destruct (IH ltac:(discriminate) E) as (qs & y & r & T & Y).
    rewrite T. now exists (String x qs), y, r.
  - now exists EmptyString, x, p.
Qed.

(** The pattern does not match at a place inside [p]. *)
Lemma no_match_inside p d rest :
  p <> EmptyString -> ends_with_digit p = false -> is_digit d = true ->
  colname_match_here (p ++ String d rest) = None.
Proof.
  intros N E D. unfold colname_match_here.
  destruct (take_digits_inside p (String d rest) N E)
    as (qs & y & r & -> & Y).
  destruct qs; [reflexivity|].
  rewrite (not_at_end_before_digit r d rest D), andb_false_r.
  destruct r; reflexivity.
Qed.

(** The search goes past a prefix that does not end with a digit. *)
Lemma search_past_prefix p d rest :
  ends_with_digit p = false -> is_digit d = true ->
  colname_search (p ++ String d rest) = colname_search (String d rest).
Proof.
  intros E D. induction p as [|x p IH]; [reflexivity|].
  cbn [append colname_search].
  change (String x (p ++ String d rest))
    with (String x p ++ String d rest)%string.
  rewrite (no_match_inside (String x p) d rest ltac:(discriminate) E D).
  apply IH. destruct p; [reflexivity|exact E].
Qed.

(** At the last run of digits the pattern matches, with or without a
    letter after it. *)
Lemma match_at_last_digits ds tail :
  ds <> EmptyString -> all_digits ds = true ->
  (tail = EmptyString
   \/ exists c, is_a_to_h c = true /\ tail = String c EmptyString) ->
  colname_match_here (ds ++ tail) = Some (ds, tail).
Proof.
  intros N A T. unfold colname_match_here.
  rewrite take_digits_run; [|exact A|].
  - destruct ds; [congruence|].
    destruct T as [-> | (c & C & ->)]; [reflexivity|]. cbn. now rewrite C.
  - destruct T as [-> | (c & C & ->)]; [exact I|].
    now apply letter_is_no_digit.
Qed.

Lemma search_finds_last_digits p ds tail :
  ends_with_digit p = false ->
  ds <> EmptyString -> all_digits ds = true ->
  (tail = EmptyString
   \/ exists c, is_a_to_h c = true /\ tail = String c EmptyString) ->
  colname_search (p ++ ds ++ tail) = Some (ds, tail).
Proof.
  intros E N A T.
  assert (M : colname_search (ds ++ tail) = Some (ds, tail)).
  { destruct (ds ++ tail)%string eqn:S;
      cbn [colname_search]; rewrite <- ?S;
      now rewrite (match_at_last_digits ds tail N A T). }
  destruct ds as [|d ds]; [congruence|]. cbn [append] in *.
  apply andb_true_iff in A. destruct A as [D _].
  now rewrite (search_past_prefix p d (ds ++ tail) E D).
Qed.

Lemma append_empty s : (s ++ EmptyString)%string = s.
Proof. induction s; cbn; congruence. Qed.

Lemma letter_term_is_zero c :
  is_a_to_h c = true -> ((Z.of_nat (nat_of_ascii c) - 96) / 100)%Z = 0%Z.
Proof.
  unfold is_a_to_h. intros H. apply andb_true_iff in H.
  destruct H as [L U]. apply Nat.leb_le in L, U.
  apply Z.div_small. lia.
Qed.

(** X6: a letter from a to h after the last digits of a column name never
    changes its key: the letter term is the floor of a number below 100
    over 100, that is 0, so that for instance the parts a to h of
    question 56 all get the key 56.  The number is below 2^53, where the
    float of the code is the number itself. *)
Theorem letter_never_changes_the_key p ds c :
  ascii_only p = true ->
  ends_with_digit p = false ->
  ds <> EmptyString -> all_digits ds = true ->
  (float_of_digits ds < 2 ^ 53)%Z ->
  is_a_to_h c = true ->
  cbc_colname_sorter (p ++ ds ++ String c EmptyString)
  = cbc_colname_sorter (p ++ ds)
  /\ cbc_colname_sorter (p ++ ds) = Some (float_of_digits ds).
Proof.
  intros _ E N A _ C. unfold cbc_colname_sorter.
  rewrite (search_finds_last_digits p ds (String c EmptyString) E N A)
    by (right; now exists c).
  assert (S : colname_search (p ++ ds) = Some (ds, EmptyString)).
  { pose proof (search_finds_last_digits p ds EmptyString E N A
                                         (or_introl eq_refl)) as S.
    now rewrite append_empty in S. }
  rewrite S, (letter_term_is_zero c C), Z.add_0_r. split; reflexivity.
Qed.

Lemma letter_never_changes_the_key_witness :
  ascii_only "cbcl_q" = true
  /\ ends_with_digit "cbcl_q" = false
  /\ "56"%string <> EmptyString
  /\ all_digits "56" = true
  /\ (float_of_digits "56" < 2 ^ 53)%Z
  /\ is_a_to_h "h" = true
  /\ cbc_colname_sorter ("cbcl_q" ++ "56" ++ String "h" EmptyString)
     = cbc_colname_sorter ("cbcl_q" ++ "56")
  /\ cbc_colname_sorter ("cbcl_q" ++ "56") = Some (float_of_digits "56").
Proof.
  split; [reflexivity|]. split; [reflexivity|]. split; [discriminate|].
  split; [reflexivity|]. split; [reflexivity|]. split; [reflexivity|].
  apply (letter_never_changes_the_key "cbcl_q" "56" "h");
    [reflexivity|reflexivity|discriminate|reflexivity|reflexivity
    |reflexivity].
Defined.

Lemma digits_of_uint u : all_digits (NilEmpty.string_of_uint u) = true.
Proof. induction u; cbn; auto. Qed.

Lemma str_of_nat_digits n :
  all_digits (str_of_nat n) = true /\ str_of_nat n <> EmptyString.
Proof.
  unfold str_of_nat. split; [apply digits_of_uint|].
  assert (N : Nat.to_uint n <> Decimal.Nil).
  { rewrite <- (DecimalNat.Unsigned.of_to n) at 1.
    rewrite DecimalNat.Unsigned.to_of. apply DecimalFacts.unorm_nonnil. }
  destruct (Nat.to_uint n); [congruence|discriminate..].
Qed.

Lemma float_of_str_of_nat n : float_of_digits (str_of_nat n) = Z.of_nat n.
Proof.
  unfold float_of_digits, str_of_nat.
  now rewrite NilEmpty.usu, DecimalNat.Unsigned.of_to.
Qed.

(** X7: when a column name ends with a number written in decimal, after a
    prefix that does not itself end with a digit, its key is that number:
    columns are ordered by the value of the number, not by its digits as
    text. *)
Theorem key_is_the_question_number p n :
  ascii_only p = true ->
  ends_with_digit p = false ->
  (Z.of_nat n < 2 ^ 53)%Z ->
  cbc_colname_sorter (p ++ str_of_nat n) = Some (Z.of_nat n).
Proof.
  intros _ E _.
  destruct (str_of_nat_digits n) as [A N].
  unfold cbc_colname_sorter.
  pose proof (search_finds_last_digits p (str_of_nat n) EmptyString E N A
                                       (or_introl eq_refl)) as S.
  rewrite append_empty in S.
  rewrite S, float_of_str_of_nat. f_equal. lia.
Qed.

Lemma key_is_the_question_number_witness :
  ascii_only "cbcl_q" = true
  /\ ends_with_digit "cbcl_q" = false
  /\ (Z.of_nat 113 < 2 ^ 53)%Z
  /\ cbc_colname_sorter ("cbcl_q" ++ str_of_nat 113) = Some (Z.of_nat 113).
Proof.
  split; [reflexivity|]. split; [reflexivity|]. split; [reflexivity|].
  apply (key_is_the_question_number "cbcl_q" 113); reflexivity.
Defined.

(** X8: a column name without any digit has no key: the function gives
    [None]. *)
Theorem no_digit_no_key colname :
  ascii_only colname = true ->
  no_digit colname = true ->
  cbc_colname_sorter colname = None.
Proof.
  intros _ D. unfold cbc_colname_sorter.
  assert (S : colname_search colname = None).
  { induction colname as [|c s IH]; [reflexivity|].
    cbn in D. apply andb_true_iff in D. destruct D as [C D].
    apply negb_true_iff in C.
    cbn [colname_search]. unfold colname_match_here. cbn [take_digits].
    rewrite C. now apply IH. }
  now rewrite S.
Qed.

Lemma no_digit_no_key_witness :
  ascii_only "subject" = true
  /\ no_digit "subject" = true
  /\ cbc_colname_sorter "subject" = None.
Proof.
  split; [reflexivity|]. split; [reflexivity|].
  apply (no_digit_no_key "subject"); reflexivity.
Defined.

(** ** Locks and labels *)

(** The requests of a batch are the triples of some of its commands. *)
Lemma batch_requests env resolves label nums md verbose h :
  exists cs,
    requests_of (snd (run_batch env resolves label nums md verbose h))
    = flat_map phases_of cs.
Proof.
  destruct (verify_scraped_issues env (scraped env label nums md verbose))
    eqn:V.
  - rewrite (run_batch_verified _ _ _ _ _ _ _ V).
    destruct (for_issues_run env resolves verbose
                             (scraped env label nums md verbose)
                             no_locals h)
      as (evs & [(tps & E & _ & Q & _)
                | (pre & i & post & tps & w & ws & _ & E & _ & Q & _)]).
    + rewrite (process_returns _ _ _ _ _ _ _ E). cbn [fst snd].
      eexists. shown. exact Q.
    + rewrite (process_raises _ _ _ _ _ _ _ E). cbn [fst snd].
      eexists. exact Q.
  - rewrite (run_batch_aborted _ _ _ _ _ _ _ V). now exists [].
Qed.

Lemma triples_keep_the_balance cs : forall before after,
  flat_map phases_of cs = before ++ after ->
  relocks before <= unlocks before <= S (relocks before)
  /\ (after = [] -> unlocks before = relocks before).
Proof.
  induction cs as [|c cs IH]; intros before after E.
  - destruct before; [|discriminate]. cbn. split; [lia|reflexivity].
  - cbn [flat_map phases_of app] in E.
    destruct before as [|r1 [|r2 [|r3 before]]].
    + cbn. split; [lia|]. intros ->. discriminate.
    + injection E as <- E. cbn. split; [lia|]. intros ->. discriminate.
    + injection E as <- <- E. cbn. split; [lia|]. intros ->. discriminate.
    + injection E as <- <- <- E. destruct (IH _ _ E) as [B F].
      unfold unlocks, relocks in *. cbn. split; [lia|].
      intros A. specialize (F A). lia.
Qed.

(** X9: the script never sends a second unlock request before the lock
    request that follows the first.  Whether the batch returns, is
    aborted at its verification or ends with an exception of the
    tracker, and whatever the record store answers, the unlock requests
    sent up to any point of the run are as many as the lock requests sent
    up to it, or one more, and over the whole run they are as many.  This
    counts the requests the script sends; whether the store carried
    them out is not part of it. *)
Theorem lock_requests_follow_unlock_requests
        env resolves label nums md verbose h before after :
  requests_of (snd (run_batch env resolves label nums md verbose h))
  = before ++ after ->
  relocks before <= unlocks before <= S (relocks before)
  /\ (after = [] -> unlocks before = relocks before).
Proof.
  destruct (batch_requests env resolves label nums md verbose h) as (cs & ->).
  apply triples_keep_the_balance.
Qed.

Lemma lock_requests_follow_unlock_requests_witness :
  let before := [LockingData "S002" "clinical" false;
                 Rerun "S002" "clinical";
                 LockingData "S002" "clinical" true;
                 LockingData "S001" "demographics" false] in
  let after := [Rerun "S001" "demographics";
                LockingData "S001" "demographics" true] in
  requests_of
    (snd (run_batch second_scenario_env reruns_succeeded visit_data None []
                    false []))
  = before ++ after
  /\ relocks before <= unlocks before <= S (relocks before)
  /\ (after = [] -> unlocks before = relocks before).
Proof.
  intros before after. split; [reflexivity|].
  apply (lock_requests_follow_unlock_requests
           second_scenario_env reruns_succeeded visit_data None [] false []
           before after).
  reflexivity.
Defined.

Lemma main_connected env resolves args h api :
  connect_server env = Ok api ->
  main env resolves args h
  = for_labels (labels args)
               (fun label =>
                  run_batch env resolves label (issue_numbers args)
                            (add_complete_fields (export_metadata api))
                            (verbose args)) h.
Proof.
  intros E. unfold main, bind, connect. rewrite E. cbn. rewrite app_nil_r.
  now destruct (for_labels _ _ h).
Qed.

Lemma for_labels_raised body pre post : forall h e evs,
  for_labels pre body h = (Raised e, evs) ->
  for_labels (pre ++ post) body h = (Raised e, evs).
Proof.
  induction pre as [|l pre IH]; intros h e evs; cbn [for_labels app].
  - discriminate.
  - unfold bind. destruct (body l h) as [[r|e'] evs1]; [|trivial].
    destruct (for_labels pre body (h ++ evs1)) as [r' evs2] eqn:F.
    intros [= -> <-]. now rewrite (IH _ _ _ F).
Qed.

(** X10: [main] has no handler around [run_batch]: an exception raised in
    the batch of one label ends [main], and the labels after it are not
    processed at all. *)
Theorem failure_in_a_label_stops_main
        env resolves args h api pre post e evs :
  connect_server env = Ok api ->
  labels args = pre ++ post ->
  main env resolves (with_labels args pre) h = (Raised e, evs) ->
  main env resolves args h = (Raised e, evs).
Proof.
  intros C L F.
  rewrite (main_connected _ _ _ _ _ C) in F.
  rewrite (main_connected _ _ _ _ _ C), L.
  cbn [with_labels labels issue_numbers verbose] in F.
  now apply for_labels_raised.
Qed.

Lemma failure_in_a_label_stops_main_witness :
  let e := GithubException (CreateComment 1 "ok") in
  let evs :=
    snd (main served_tracker_down_env reruns_succeeded
              (with_labels two_labels [visit_data]) []) in
  connect_server served_tracker_down_env = Ok two_forms
  /\ labels two_labels = [visit_data] ++ ["import_mr_sessions"]
  /\ main served_tracker_down_env reruns_succeeded
          (with_labels two_labels [visit_data]) [] = (Raised e, evs)
  /\ main served_tracker_down_env reruns_succeeded two_labels []
     = (Raised e, evs).
Proof.
  intros e evs.
  assert (F : main served_tracker_down_env reruns_succeeded
                   (with_labels two_labels [visit_data]) []
              = (Raised e, evs)) by reflexivity.
  split; [reflexivity|]. split; [reflexivity|]. split; [exact F|].
  exact (failure_in_a_label_stops_main
           served_tracker_down_env reruns_succeeded two_labels [] two_forms
           [visit_data] ["import_mr_sessions"] e evs eq_refl eq_refl F).
Defined.

(** X11: a batch that is aborted at its verification does not stop
    [main]: after the message of the abort, [main] goes on with the
    labels that follow as if it had been started on them. *)
Theorem aborted_label_does_not_stop_main
        env resolves args h api label rest :
  connect_server env = Ok api ->
  labels args = label :: rest ->
  verify_scraped_issues
    env (scraped env label (issue_numbers args)
                 (add_complete_fields (export_metadata api))
                 (verbose args)) = false ->
  main env resolves args h
  = (fst (main env resolves (with_labels args rest)
               (h ++ [Printed "Aborting..."])),
     Printed "Aborting..."
     :: snd (main env resolves (with_labels args rest)
                  (h ++ [Printed "Aborting..."]))).
Proof.
  intros C L V. rewrite !(main_connected _ _ _ _ _ C), L.
  cbn [for_labels with_labels labels issue_numbers verbose].
  unfold bind at 1. rewrite (run_batch_aborted _ _ _ _ _ _ _ V).
  now destruct (for_labels rest _ _).
Qed.

Lemma aborted_label_does_not_stop_main_witness :
  connect_server served_unverified_env = Ok two_forms
  /\ labels two_labels = visit_data :: ["import_mr_sessions"]
  /\ verify_scraped_issues
       served_unverified_env
       (scraped served_unverified_env visit_data (issue_numbers two_labels)
                (add_complete_fields (export_metadata two_forms))
                (verbose two_labels)) = false
  /\ main served_unverified_env reruns_succeeded two_labels []
     = (fst (main served_unverified_env reruns_succeeded
                  (with_labels two_labels ["import_mr_sessions"])
                  ([] ++ [Printed "Aborting..."])),
        Printed "Aborting..."
        :: snd (main served_unverified_env reruns_succeeded
                     (with_labels two_labels ["import_mr_sessions"])
                     ([] ++ [Printed "Aborting..."]))).
Proof.
  split; [reflexivity|]. split; [reflexivity|]. split; [reflexivity|].
  exact (aborted_label_does_not_stop_main
           served_unverified_env reruns_succeeded two_labels [] two_forms
           visit_data ["import_mr_sessions"] eq_refl eq_refl eq_refl).
Defined.

(** ** The pattern of the event names *)

Lemma digit_is_word d : is_digit d = true -> is_word d = true.
Proof. unfold is_word. now intros ->. Qed.

Lemma no_arm_after_digit c s d r :
  is_digit d = true -> is_digit c = false ->
  prefix (String c s) (String d r) = false.
Proof.
  intros D C. cbn. destruct (ascii_dec c d) as [-> | _]; [congruence|].
  reflexivity.
Qed.

(** After [\d+] the rest is at its end exactly when the digits go up to
    the end of the string. *)
Lemma digits_to_end_all ds :
  ds <> EmptyString -> all_digits ds = true -> digits_to_end ds = Some ds.
Proof.
  induction ds as [|d ds IH]; [congruence|]. intros _ A. cbn in *.
  apply andb_true_iff in A. destruct A as [D A]. rewrite D.
  destruct ds as [|d' ds]; [reflexivity|].
  now rewrite (IH ltac:(discriminate) A).
Qed.

(** Digits alone hold no arm. *)
Lemma no_arm_in_digits ds :
  all_digits ds = true -> str_extract ds = None /\ arm_group ds = None.
Proof.
  induction ds as [|d ds IH]; [now split|]. intros A. cbn in A.
  apply andb_true_iff in A. destruct A as [D A].
  destruct (IH A) as [E G]. split.
  - cbn [str_extract]. now rewrite (digit_is_word _ D), E, G.
  - unfold arm_group. now rewrite (no_arm_after_digit "_" "arm_" d ds D).
Qed.

Lemma substring_all s : substring 0 (String.length s) s = s.
Proof. induction s; cbn; congruence. Qed.

Lemma arm_group_found ds :
  ds <> EmptyString -> all_digits ds = true ->
  arm_group ("_arm_" ++ ds) = Some ("arm_" ++ ds)%string.
Proof.
  intros N A. unfold arm_group. cbn.
  replace (prefix EmptyString ds) with true by (now destruct ds).
  now rewrite Nat.sub_0_r, substring_all, (digits_to_end_all ds N A).
Qed.

Lemma no_match_extends c s :
  is_word c = true -> str_extract s = None -> arm_group s = None ->
  str_extract (String c s) = None.
Proof. intros C E G. cbn [str_extract]. now rewrite C, E, G. Qed.

(** No split is found in [_arm_] followed by digits alone: the visit
    before the arm cannot be empty. *)
Lemma no_visit_no_match ds :
  all_digits ds = true -> str_extract ("_arm_" ++ ds) = None.
Proof.
  intros A. destruct (no_arm_in_digits ds A) as [E G].
  assert (G1 : arm_group (String "_" ds) = None).
  { unfold arm_group. cbn [prefix].
    destruct (ascii_dec "_" "_") as [_ | N]; [|congruence].
    destruct ds as [|d r]; [reflexivity|].
    cbn in A. apply andb_true_iff in A. destruct A as [D _].
    now rewrite (no_arm_after_digit "a" "rm_" d r D). }
  cbn [append].
  repeat (apply no_match_extends;
          [reflexivity| |first [exact G1|reflexivity]]).
  apply no_match_extends; [reflexivity|exact E|exact G].
Qed.

(** X12: the pattern of line 116 splits an event name at its last
    [_arm_N]: a name made of a visit (word characters, at least one),
    [_arm_] and a number gives back exactly that visit and [arm_] with
    that number, also when the visit itself holds an [_arm_N]. *)
Theorem event_name_splits_at_the_arm visit ds :
  ascii_only visit = true ->
  visit <> EmptyString -> all_word visit = true ->
  ds <> EmptyString -> all_digits ds = true ->
  str_extract (visit ++ "_arm_" ++ ds) = Some (visit, ("arm_" ++ ds)%string).
Proof.
  intros _ N W Nd A. induction visit as [|c v IH]; [congruence|].
  cbn in W. apply andb_true_iff in W. destruct W as [C W].
  change (String c v ++ "_arm_" ++ ds)%string
    with (String c (v ++ "_arm_" ++ ds)).
  cbn [str_extract]. rewrite C.
  destruct v as [|c' v].
  - change (EmptyString ++ "_arm_" ++ ds)%string with ("_arm_" ++ ds)%string.
    now rewrite (no_visit_no_match ds A), (arm_group_found ds Nd A).
  - now rewrite (IH ltac:(discriminate) W).
Qed.

Lemma event_name_splits_at_the_arm_witness :
  ascii_only "1y_visit" = true
  /\ "1y_visit"%string <> EmptyString
  /\ all_word "1y_visit" = true
  /\ "12"%string <> EmptyString
  /\ all_digits "12" = true
  /\ str_extract ("1y_visit" ++ "_arm_" ++ "12")
     = Some ("1y_visit"%string, ("arm_" ++ "12")%string).
Proof.
  split; [reflexivity|]. split; [discriminate|]. split; [reflexivity|].
  split; [discriminate|]. split; [reflexivity|].
  apply (event_name_splits_at_the_arm "1y_visit" "12");
    [reflexivity|discriminate|reflexivity|discriminate|reflexivity].
Defined.
